(** * The trading store of BinanceAlphaTool (src/services/trading/tradingService.ts)

    A shallow embedding of the pinia store [useTradingStore]: its
    configuration, statistics and log, the four remote operations, the
    trading cycle, the drive loop of [startTrading], [stopTrading], the
    persisted configuration and the [runningTime] getter.

    Conventions of the embedding.
    - A JavaScript number that holds an amount is a binary64 float
      ([PrimFloat.float]).  A number that only ever holds an integer
      (millisecond clock readings, the cycle counter) is a [Z]; such
      values stay far below 2^53, where binary64 is exact.
    - Dynamically typed data (HTTP payloads, thrown values, parsed JSON) is
      a [jsval].
    - Everything outside the store (cookies, the clock, [Math.random], the
      exchange, CryptoJS, number formatting) is a [World]; the store counts
      the external reads it has made in the ghost field [tick], and the
      n-th read is answered by the world at index n.
    - Code that can throw lives in the monad [M], whose results are either
      a thrown [jsval] or a value.
    - The [config] of a store is a TradeConfig.  [loadConfig] can assign
      any JSON value; when that value is no TradeConfig the store leaves
      this model ([LoadMistyped]), and of what the code does then only the
      first loop test of [startTrading] is followed
      ([startTrading_mistyped]).
    - An [async] function runs as one step; the two timers of the drive
      loop are the suspension points that are modelled, as states of a
      [task].
    - A string is the UTF-8 encoding of the JavaScript string it stands
      for; the program takes strings apart only at ASCII characters and at
      white space.
    - Equality of numbers in the statements is sameness of the value
      (NaN is the same as NaN, and 0 is not -0). *)

From Stdlib Require Import ZArith String Ascii List Bool Lia.
From Stdlib Require Import Floats.FloatClass Floats.PrimFloat.
From stdpp Require Import base gmap strings pretty.
Import ListNotations.

Local Open Scope Z_scope.
Set Warnings "-register-all,-inexact-float".

(** ** JavaScript values *)

Inductive jsval : Type :=
| JUndefined
| JNull
| JBool (b : bool)
| JNum (x : float)
| JStr (s : string)
| JArr (items : list jsval)
| JObj (props : list (string * jsval))
| JErr (name message : string).

(** An [Error] object is [JErr name message]; everything the program
    throws or receives as a rejection is a [jsval]. *)

Module Js.

Definition is_nan (x : float) : bool := negb (PrimFloat.eqb x x).

(** ToBoolean. *)
Definition truthy (v : jsval) : bool :=
  match v with
  | JUndefined | JNull => false
  | JBool b => b
  | JNum x => negb (PrimFloat.eqb x 0%float || is_nan x)
  | JStr s => negb (String.eqb s "")
  | JArr _ | JObj _ | JErr _ _ => true
  end.

Fixpoint assoc (k : string) (ps : list (string * jsval)) : jsval :=
  match ps with
  | [] => JUndefined
  | (k', v) :: ps' => if String.eqb k k' then v else assoc k ps'
  end.

Definition TypeError (what : string) : jsval :=
  JErr "TypeError" what.

(** [v.k]: reading a property of [undefined] or [null] throws; of the
    property names the program reads, primitives and arrays own none. *)
Definition get_prop (v : jsval) (k : string) : jsval + jsval :=
  match v with
  | JUndefined => inl (TypeError "Cannot read properties of undefined")
  | JNull => inl (TypeError "Cannot read properties of null")
  | JObj ps => inr (assoc k ps)
  | JErr n m =>
      inr (if String.eqb k "message" then JStr m
           else if String.eqb k "name" then JStr n else JUndefined)
  | JBool _ | JNum _ | JStr _ | JArr _ => inr JUndefined
  end.

(** [v === s] for a string literal [s]. *)
Definition strict_eq_str (v : jsval) (s : string) : bool :=
  match v with
  | JStr t => String.eqb t s
  | _ => false
  end.

(** Error.prototype.toString *)
Definition error_to_str (name message : string) : string :=
  if String.eqb message "" then name
  else if String.eqb name "" then message
  else name +:+ ": " +:+ message.

Definition join (sep : string) (parts : list string) : string :=
  match parts with
  | [] => ""
  | p :: ps => fold_left (fun acc q => acc +:+ sep +:+ q) ps p
  end.

(** String.prototype.split on a one-character separator. *)
Fixpoint split (sep : ascii) (s : string) : list string :=
  match s with
  | EmptyString => [EmptyString]
  | String c s' =>
      if Ascii.eqb c sep then EmptyString :: split sep s'
      else match split sep s' with
           | [] => [String c EmptyString]
           | p :: ps => String c p :: ps
           end
  end.

(** The white space that [trim] strips is the WhiteSpace and LineTerminator
    of ECMAScript.  In UTF-8 these are the single bytes 9 to 13 (TAB, LF,
    VT, FF, CR) and 32 (SP); the two bytes C2 A0 of U+00A0; and the three
    bytes of U+1680 (E1 9A 80), U+2000 to U+200A (E2 80 80 to E2 80 8A),
    U+2028 and U+2029 (E2 80 A8, E2 80 A9), U+202F (E2 80 AF), U+205F
    (E2 81 9F), U+3000 (E3 80 80) and U+FEFF (EF BB BF). *)
Definition is_space (c : ascii) : bool :=
  let n := nat_of_ascii c in
  ((9 <=? n) && (n <=? 13) || (n =? 32))%nat.

Definition is_space2 (c1 c2 : ascii) : bool :=
  ((nat_of_ascii c1 =? 194) && (nat_of_ascii c2 =? 160))%nat.

Definition is_space3 (c1 c2 c3 : ascii) : bool :=
  let n1 := nat_of_ascii c1 in
  let n2 := nat_of_ascii c2 in
  let n3 := nat_of_ascii c3 in
  ((n1 =? 225) && (n2 =? 154) && (n3 =? 128)
   || (n1 =? 226) && (n2 =? 128)
      && ((128 <=? n3) && (n3 <=? 138) || (n3 =? 168) || (n3 =? 169)
          || (n3 =? 175))
   || (n1 =? 226) && (n2 =? 129) && (n3 =? 159)
   || (n1 =? 227) && (n2 =? 128) && (n3 =? 128)
   || (n1 =? 239) && (n2 =? 187) && (n3 =? 191))%nat.

(** String.prototype.trimStart *)
Fixpoint trim_start (s : string) : string :=
  match s with
  | String c1 s1 =>
      if is_space c1 then trim_start s1
      else
        match s1 with
        | String c2 s2 =>
            if is_space2 c1 c2 then trim_start s2
            else
              match s2 with
              | String c3 s3 =>
                  if is_space3 c1 c2 c3 then trim_start s3 else s
              | EmptyString => s
              end
        | EmptyString => s
        end
  | EmptyString => EmptyString
  end.

(** String.prototype.trimEnd: the longest suffix made of white space
    alone is cut off. *)
Fixpoint trim_end (s : string) : string :=
  match s with
  | EmptyString => EmptyString
  | String c s' =>
      if String.eqb (trim_start s) "" then EmptyString
      else String c (trim_end s')
  end.

(** String.prototype.trim *)
Definition trim (s : string) : string := trim_end (trim_start s).

Definition startsWith (s p : string) : bool := String.prefix p s.

(** [s.substring(n)] *)
Fixpoint substring_from (n : nat) (s : string) : string :=
  match n, s with
  | O, _ => s
  | S n', String _ s' => substring_from n' s'
  | S _, EmptyString => EmptyString
  end.

Fixpoint repeat_char (n : nat) (c : ascii) : string :=
  match n with
  | O => EmptyString
  | S n' => String c (repeat_char n' c)
  end.

(** [s.padStart(n, c)] for a one-character filler. *)
Definition padStart (n : nat) (c : ascii) (s : string) : string :=
  repeat_char (n - String.length s) c +:+ s.

(** [x.toString()] for an integer-valued number. *)
Definition int_to_str (z : Z) : string := pretty z.

End Js.

(** ** The world outside the store *)

Inductive http_method := GET | POST.

Record request := {
  meth : http_method;
  url : string;
  body : jsval;        (* the JSON payload; [JUndefined] for a GET *)
  headers : jsval
}.

(** The first five fields are pure platform functions; the last four are
    read at an index, the position of the read in the run.  [axios] answers
    a request with [inl error] (the promise rejects) or [inr data] (it
    resolves, [data] being [response.data]). *)
Record World := {
  MD5 : string -> string;               (* CryptoJS.MD5(str).toString() *)
  number_to_string : float -> string;   (* Number::toString *)
  string_to_number : string -> float;   (* StringToNumber *)
  parseFloat : jsval -> float;
  toISOString : Z -> string;            (* new Date(ms).toISOString() *)
  document_cookie : nat -> string;
  Date_now : nat -> Z;
  Math_random : nat -> float;
  axios : nat -> request -> jsval + jsval
}.

(** Template-literal conversion [`${v}`]. *)
Fixpoint to_str (w : World) (v : jsval) : string :=
  match v with
  | JUndefined => "undefined"
  | JNull => "null"
  | JBool b => if b then "true" else "false"
  | JNum x => number_to_string w x
  | JStr s => s
  | JArr items =>
      Js.join ","
        (map (fun e => match e with
                       | JUndefined | JNull => ""
                       | _ => to_str w e
                       end) items)
  | JObj _ => "[object Object]"
  | JErr n m => Js.error_to_str n m
  end.

(** ToNumber, as applied by the binary [-]. *)
Definition to_number (w : World) (v : jsval) : float :=
  match v with
  | JUndefined => nan
  | JNull => 0%float
  | JBool b => if b then 1%float else 0%float
  | JNum x => x
  | JStr s => string_to_number w s
  | JArr _ | JObj _ | JErr _ _ => string_to_number w (to_str w v)
  end.

(** ** The data model *)

Record TradeConfig := {
  fromToken : string;
  toToken : string;
  contractAddress : string;
  minAmount : float;
  maxAmount : float;
  targetVolume : float;
  maxLossRate : float;
  minUSDTRequired : float
}.

Record TradeRecord := {
  time : string;
  buyAmount : float;
  sellAmount : jsval;     (* [sellQuote.toCoinAmount], stored as received *)
  profitLoss : float;
  cycleNumber : Z
}.

Record Stats := {
  startBalance : float;
  currentBalance : float;
  totalVolume : float;
  cyclesCompleted : Z;
  totalProfit : float;
  tradeHistory : list TradeRecord;
  startTime : Z;
  lastUpdated : Z
}.

Record Store := {
  config : TradeConfig;
  stats : Stats;
  logs : list string;
  isTrading : bool;
  isConnected : bool;
  tick : nat              (* ghost: external reads made so far *)
}.

Definition default_config : TradeConfig := {|
  fromToken := "USDT";
  toToken := "B2";
  contractAddress := "0x783c3f003f172c6ac5ac700218a357d2d66ee2a2";
  minAmount := 10;
  maxAmount := 20;
  targetVolume := 8192;
  maxLossRate := 0.004;
  minUSDTRequired := 50
|}.

Definition initial_stats : Stats := {|
  startBalance := 0;
  currentBalance := 0;
  totalVolume := 0;
  cyclesCompleted := 0;
  totalProfit := 0;
  tradeHistory := [];
  startTime := 0;
  lastUpdated := 0
|}.

Definition initial_store : Store := {|
  config := default_config;
  stats := initial_stats;
  logs := [];
  isTrading := false;
  isConnected := false;
  tick := 0
|}.

(** Field updates. *)

Definition set_currentBalance (x : float) (s : Stats) : Stats :=
  {| startBalance := startBalance s; currentBalance := x;
     totalVolume := totalVolume s; cyclesCompleted := cyclesCompleted s;
     totalProfit := totalProfit s; tradeHistory := tradeHistory s;
     startTime := startTime s; lastUpdated := lastUpdated s |}.

Definition set_totalVolume (x : float) (s : Stats) : Stats :=
  {| startBalance := startBalance s; currentBalance := currentBalance s;
     totalVolume := x; cyclesCompleted := cyclesCompleted s;
     totalProfit := totalProfit s; tradeHistory := tradeHistory s;
     startTime := startTime s; lastUpdated := lastUpdated s |}.

Definition set_cyclesCompleted (n : Z) (s : Stats) : Stats :=
  {| startBalance := startBalance s; currentBalance := currentBalance s;
     totalVolume := totalVolume s; cyclesCompleted := n;
     totalProfit := totalProfit s; tradeHistory := tradeHistory s;
     startTime := startTime s; lastUpdated := lastUpdated s |}.

Definition set_totalProfit (x : float) (s : Stats) : Stats :=
  {| startBalance := startBalance s; currentBalance := currentBalance s;
     totalVolume := totalVolume s; cyclesCompleted := cyclesCompleted s;
     totalProfit := x; tradeHistory := tradeHistory s;
     startTime := startTime s; lastUpdated := lastUpdated s |}.

Definition set_tradeHistory (h : list TradeRecord) (s : Stats) : Stats :=
  {| startBalance := startBalance s; currentBalance := currentBalance s;
     totalVolume := totalVolume s; cyclesCompleted := cyclesCompleted s;
     totalProfit := totalProfit s; tradeHistory := h;
     startTime := startTime s; lastUpdated := lastUpdated s |}.

Definition set_startTime (t : Z) (s : Stats) : Stats :=
  {| startBalance := startBalance s; currentBalance := currentBalance s;
     totalVolume := totalVolume s; cyclesCompleted := cyclesCompleted s;
     totalProfit := totalProfit s; tradeHistory := tradeHistory s;
     startTime := t; lastUpdated := lastUpdated s |}.

Definition set_lastUpdated (t : Z) (s : Stats) : Stats :=
  {| startBalance := startBalance s; currentBalance := currentBalance s;
     totalVolume := totalVolume s; cyclesCompleted := cyclesCompleted s;
     totalProfit := totalProfit s; tradeHistory := tradeHistory s;
     startTime := startTime s; lastUpdated := t |}.

Definition set_config (c : TradeConfig) (σ : Store) : Store :=
  {| config := c; stats := stats σ; logs := logs σ;
     isTrading := isTrading σ; isConnected := isConnected σ; tick := tick σ |}.

Definition set_stats (s : Stats) (σ : Store) : Store :=
  {| config := config σ; stats := s; logs := logs σ;
     isTrading := isTrading σ; isConnected := isConnected σ; tick := tick σ |}.

Definition set_logs (l : list string) (σ : Store) : Store :=
  {| config := config σ; stats := stats σ; logs := l;
     isTrading := isTrading σ; isConnected := isConnected σ; tick := tick σ |}.

Definition set_isTrading (b : bool) (σ : Store) : Store :=
  {| config := config σ; stats := stats σ; logs := logs σ;
     isTrading := b; isConnected := isConnected σ; tick := tick σ |}.

Definition set_tick (n : nat) (σ : Store) : Store :=
  {| config := config σ; stats := stats σ; logs := logs σ;
     isTrading := isTrading σ; isConnected := isConnected σ; tick := n |}.

(** [logs.value.push(line)] *)
Definition push_log (line : string) (σ : Store) : Store :=
  set_logs (logs σ ++ [line]) σ.

(** ** The monad of store code: world reader, store state, exceptions *)

Definition M (A : Type) : Type := World -> Store -> (jsval + A) * Store.

Definition ret {A} (a : A) : M A := fun _ σ => (inr a, σ).

Definition throw {A} (e : jsval) : M A := fun _ σ => (inl e, σ).

Definition bind {A B} (m : M A) (k : A -> M B) : M B :=
  fun w σ =>
    match m w σ with
    | (inl e, σ') => (inl e, σ')
    | (inr a, σ') => k a w σ'
    end.

(** [try { body } catch (e) { handler e }] *)
Definition try_catch {A} (body : M A) (handler : jsval -> M A) : M A :=
  fun w σ =>
    match body w σ with
    | (inl e, σ') => handler e w σ'
    | (inr a, σ') => (inr a, σ')
    end.

Definition lift {A} (r : jsval + A) : M A := fun _ σ => (r, σ).

Definition gets {A} (f : Store -> A) : M A := fun _ σ => (inr (f σ), σ).

Definition modify (f : Store -> Store) : M unit := fun _ σ => (inr tt, f σ).

(** A pure platform function. *)
Definition platform {A} (f : World -> A) : M A := fun w σ => (inr (f w), σ).

(** One read of the outside world: answered at the current index, which
    then advances. *)
Definition external {A} (f : World -> nat -> A) : M A :=
  fun w σ => (inr (f w (tick σ)), set_tick (S (tick σ)) σ).

(** [logs.value.push(`...`)], the line being built by the platform's
    string conversions. *)
Definition log (line : World -> string) : M unit :=
  fun w σ => (inr tt, push_log (line w) σ).

Declare Scope js_scope.
Delimit Scope js_scope with js.
Notation "'let*' x ':=' m 'in' k" := (bind m (fun x => k))
  (at level 10, x name, m at level 100, k at level 200) : js_scope.
Notation "m1 ';;;' m2" := (bind m1 (fun _ => m2))
  (at level 100, m2 at level 200, right associativity) : js_scope.
Local Open Scope js_scope.

(** ** AuthProvider: the session cookie and the request headers *)

Fixpoint find_cookie (name : string) (cookies : list string) : option string :=
  match cookies with
  | [] => None
  | cookie :: rest =>
      let cookie := Js.trim cookie in
      if Js.startsWith cookie (name +:+ "=")
      then Some (Js.substring_from (String.length name + 1) cookie)
      else find_cookie name rest
  end.

(** [getCookieValue(name)]; [None] is [null]. *)
Definition getCookieValue (name : string) : M (option string) :=
  let* cookies := external document_cookie in
  ret (find_cookie name (Js.split ";" cookies)).

Definition getHeaders : M jsval :=
  let* cr00 := getCookieValue "cr00" in
  match cr00 with
  | Some c =>
      if String.eqb c "" then throw (JErr "Error" "無法找到cr00 cookie")
      else
        let* csrftoken := platform (fun w => MD5 w c) in
        ret (JObj [("Accept", JStr "*/*");
                   ("Content-Type", JStr "application/json");
                   ("clienttype", JStr "web");
                   ("csrftoken", JStr csrftoken)])
  | None => throw (JErr "Error" "無法找到cr00 cookie")
  end.

(** ** MarketClient: the four remote operations *)

Definition quote_url : string :=
  "https://www.binance.com/bapi/defi/v1/private/wallet-direct/swap/cex/get-quote".
Definition buy_url : string :=
  "https://www.binance.com/bapi/defi/v2/private/wallet-direct/swap/cex/buy/pre/payment".
Definition sell_url : string :=
  "https://www.binance.com/bapi/defi/v2/private/wallet-direct/swap/cex/sell/pre/payment".
Definition balance_url : string :=
  "https://www.binance.com/bapi/asset/v2/private/asset-service/wallet/balance?quoteAsset=USDT&needBalanceDetail=true&needEuFuture=true".

(** [await axios.post(url, params, { headers })] and
    [await axios.get(url, { headers })]: the value is [response.data], a
    rejection is thrown. *)
Definition send (r : request) : M jsval :=
  fun w σ => (axios w (tick σ) r, set_tick (S (tick σ)) σ).

Definition axios_post (u : string) (params hs : jsval) : M jsval :=
  send {| meth := POST; url := u; body := params; headers := hs |}.

Definition axios_get (u : string) (hs : jsval) : M jsval :=
  send {| meth := GET; url := u; body := JUndefined; headers := hs |}.

(** The [try] blocks, named so that their failures can be spoken of. *)

Definition getQuote_try (params : jsval) : M jsval :=
  let* hs := getHeaders in
  let* data := axios_post quote_url params hs in
  lift (Js.get_prop data "data").

Definition getQuote (params : jsval) : M jsval :=
  try_catch (getQuote_try params)
    (fun error =>
       log (fun w => "❌ 獲取報價錯誤: " +:+ to_str w error) ;;;
       ret JNull).

Definition buyToken_try (params : jsval) : M jsval :=
  let* hs := getHeaders in
  axios_post buy_url params hs.

Definition buyToken (params : jsval) : M jsval :=
  try_catch (buyToken_try params)
    (fun error =>
       log (fun w => "❌ 買入代幣錯誤: " +:+ to_str w error) ;;;
       ret (JObj [("success", JBool false); ("message", error)])).

Definition sellToken_try (params : jsval) : M jsval :=
  let* hs := getHeaders in
  axios_post sell_url params hs.

Definition sellToken (params : jsval) : M jsval :=
  try_catch (sellToken_try params)
    (fun error =>
       log (fun w => "❌ 賣出代幣錯誤: " +:+ to_str w error) ;;;
       ret (JObj [("success", JBool false); ("message", error)])).

(** [arr.find(x => x.key === wanted)]: the callback throws on an
    [undefined] or [null] element; a receiver that is no array has no
    [find] to call. *)
Fixpoint find_by (key wanted : string) (items : list jsval) : jsval + jsval :=
  match items with
  | [] => inr JUndefined
  | x :: rest =>
      match Js.get_prop x key with
      | inl e => inl e
      | inr v => if Js.strict_eq_str v wanted then inr x else find_by key wanted rest
      end
  end.

Definition array_find_by (key wanted : string) (v : jsval) : jsval + jsval :=
  match v with
  | JArr items => find_by key wanted items
  | JUndefined => inl (Js.TypeError "Cannot read properties of undefined")
  | JNull => inl (Js.TypeError "Cannot read properties of null")
  | _ => inl (Js.TypeError "find is not a function")
  end.

Definition getUSDTBalance_try : M float :=
  let* hs := getHeaders in
  let* data := axios_get balance_url hs in
  let* accounts := lift (Js.get_prop data "data") in
  let* spotAccount := lift (array_find_by "accountType" "MAIN" accounts) in
  let* usdt :=
    match spotAccount with
    | JUndefined | JNull => ret JUndefined      (* the [?.] short-circuit *)
    | _ =>
        let* balances := lift (Js.get_prop spotAccount "assetBalances") in
        lift (array_find_by "asset" "USDT" balances)
    end in
  if Js.truthy usdt then
    let* free := lift (Js.get_prop usdt "free") in
    platform (fun w => parseFloat w free)
  else ret 0%float.

Definition getUSDTBalance : M float :=
  try_catch getUSDTBalance_try
    (fun error =>
       log (fun w => "❌ 獲取USDT餘額錯誤: " +:+ to_str w error) ;;;
       ret 0%float).

(** ** CycleEngine: one buy-then-sell cycle *)

(** [Math.random() * (maxAmount - minAmount) + minAmount] *)
Definition draw_amount (r : float) (c : TradeConfig) : float :=
  (r * (maxAmount c - minAmount c) + minAmount c)%float.

Definition buy_quote_params (fromToken' toToken' : string) (fromAmount : float)
    (address : string) : jsval :=
  JObj [("fromToken", JStr fromToken');
        ("fromBinanceChainId", JStr "56");
        ("fromCoinAmount", JNum fromAmount);
        ("toToken", JStr toToken');
        ("toBinanceChainId", JStr "56");
        ("toContractAddress", JStr address);
        ("priorityMode", JStr "priorityOnCustom");
        ("customNetworkFeeMode", JStr "priorityOnSuccess");
        ("customSlippage", JStr "0.001")].

Definition buy_params (fromToken' toToken' : string) (fromAmount : float)
    (address : string) (toCoinAmount extra : jsval) : jsval :=
  JObj [("fromToken", JStr fromToken');
        ("fromBinanceChainId", JStr "56");
        ("fromCoinAmount", JNum fromAmount);
        ("toToken", JStr toToken');
        ("toContractAddress", JStr address);
        ("toCoinAmount", toCoinAmount);
        ("priorityMode", JStr "priorityOnPrice");
        ("extra", extra)].

Definition sell_quote_params (fromToken' toToken' : string) (address : string)
    (bought : jsval) : jsval :=
  JObj [("fromToken", JStr toToken');
        ("fromBinanceChainId", JStr "56");
        ("fromContractAddress", JStr address);
        ("fromCoinAmount", bought);
        ("toToken", JStr fromToken');
        ("toBinanceChainId", JStr "56");
        ("toContractAddress", JStr "");
        ("priorityMode", JStr "priorityOnCustom");
        ("customNetworkFeeMode", JStr "priorityOnSuccess");
        ("customSlippage", JStr "0.001")].

Definition sell_params (fromToken' toToken' : string) (address : string)
    (bought toCoinAmount extra : jsval) : jsval :=
  JObj [("fromToken", JStr toToken');
        ("fromBinanceChainId", JStr "56");
        ("fromContractAddress", JStr address);
        ("fromCoinAmount", bought);
        ("toToken", JStr fromToken');
        ("toBinanceChainId", JStr "56");
        ("toCoinAmount", toCoinAmount);
        ("priorityMode", JStr "priorityOnPrice");
        ("extra", extra)].

(** The statistics update of a completed cycle, in source order:
    [tradeHistory.push], [totalVolume +=], [totalProfit +=],
    [cyclesCompleted++]. *)
Definition record_trade (newTrade : TradeRecord) (fromAmount : float)
    (s : Stats) : Stats :=
  let s := set_tradeHistory (tradeHistory s ++ [newTrade]) s in
  let s := set_totalVolume (totalVolume s + fromAmount)%float s in
  let s := set_totalProfit (totalProfit s + profitLoss newTrade)%float s in
  set_cyclesCompleted (cyclesCompleted s + 1) s.

Definition runCycle_try : M bool :=
  let* usdtBalance := getUSDTBalance in
  modify (fun σ => set_stats (set_currentBalance usdtBalance (stats σ)) σ) ;;;
  let* required := gets (fun σ => minUSDTRequired (config σ)) in
  if (usdtBalance <? required)%float then
    log (fun w => "⚠️ USDT餘額不足: " +:+ number_to_string w usdtBalance
                  +:+ " < " +:+ number_to_string w required) ;;;
    ret false
  else
    let* fromToken' := gets (fun σ => fromToken (config σ)) in
    let* toToken' := gets (fun σ => toToken (config σ)) in
    let* r := external Math_random in
    let* fromAmount := gets (fun σ => draw_amount r (config σ)) in
    let* done := gets (fun σ => cyclesCompleted (stats σ)) in
    log (fun w => "🔄 開始第 " +:+ Js.int_to_str (done + 1)
                  +:+ " 輪交易，買入金額：" +:+ number_to_string w fromAmount
                  +:+ " " +:+ fromToken') ;;;
    let* address := gets (fun σ => contractAddress (config σ)) in
    let* buyQuote :=
      getQuote (buy_quote_params fromToken' toToken' fromAmount address) in
    if negb (Js.truthy buyQuote) then ret false
    else
      let* address := gets (fun σ => contractAddress (config σ)) in
      let* bought := lift (Js.get_prop buyQuote "toCoinAmount") in
      let* extra := lift (Js.get_prop buyQuote "extra") in
      let* buyResult :=
        buyToken (buy_params fromToken' toToken' fromAmount address bought extra) in
      let* success := lift (Js.get_prop buyResult "success") in
      if negb (Js.truthy success) then
        let* message := lift (Js.get_prop buyResult "message") in
        log (fun w => "❌ 買入失敗: " +:+ to_str w message) ;;;
        ret false
      else
        let* address := gets (fun σ => contractAddress (config σ)) in
        let* bought := lift (Js.get_prop buyQuote "toCoinAmount") in
        let* sellQuote :=
          getQuote (sell_quote_params fromToken' toToken' address bought) in
        if negb (Js.truthy sellQuote) then ret false
        else
          let* address := gets (fun σ => contractAddress (config σ)) in
          let* bought := lift (Js.get_prop buyQuote "toCoinAmount") in
          let* proceeds := lift (Js.get_prop sellQuote "toCoinAmount") in
          let* extra := lift (Js.get_prop sellQuote "extra") in
          let* sellResult :=
            sellToken (sell_params fromToken' toToken' address bought proceeds extra) in
          let* success := lift (Js.get_prop sellResult "success") in
          if negb (Js.truthy success) then
            let* message := lift (Js.get_prop sellResult "message") in
            log (fun w => "❌ 賣出失敗: " +:+ to_str w message) ;;;
            ret false
          else
            let* now := external Date_now in
            let* iso := platform (fun w => toISOString w now) in
            let* proceeds := lift (Js.get_prop sellQuote "toCoinAmount") in
            let* profit := platform (fun w => (to_number w proceeds - fromAmount)%float) in
            let* done := gets (fun σ => cyclesCompleted (stats σ)) in
            let newTrade := {| time := iso; buyAmount := fromAmount;
                               sellAmount := proceeds; profitLoss := profit;
                               cycleNumber := done + 1 |} in
            modify (fun σ => set_stats (record_trade newTrade fromAmount (stats σ)) σ) ;;;
            let* now := external Date_now in
            modify (fun σ => set_stats (set_lastUpdated now (stats σ)) σ) ;;;
            log (fun w => "✅ 交易成功：買入 " +:+ number_to_string w fromAmount
                          +:+ " " +:+ fromToken' +:+ "，賣出獲得 "
                          +:+ to_str w proceeds +:+ " " +:+ fromToken') ;;;
            ret true.

Definition runCycle : M bool :=
  try_catch runCycle_try
    (fun error =>
       log (fun w => "❌ 交易循環錯誤: " +:+ to_str w error) ;;;
       ret false).

(** ** Controller: start, the drive loop, stop *)

Definition stopTrading (σ : Store) : Store :=
  push_log "⏹️ 停止交易" (set_isTrading false σ).

(** The two places where the drive loop is suspended in a timer. *)
Inductive suspension := Backoff | InterCycle.


(** Where the call of [startTrading] stands: suspended in one of its two
    timers, returned, or rejected by an escaped exception. *)
Inductive task :=
| Suspended (d : suspension)
| Returned
| Rejected (e : jsval).

(** The [while] condition. *)
Definition loop_test (σ : Store) : bool :=
  isTrading σ && (totalVolume (stats σ) <? targetVolume (config σ))%float.

(** From the loop test to the next suspension or to the end.  The awaits
    inside [runCycle] are not suspension points of this model: a cycle runs
    as one step. *)
Definition loop_top (w : World) (σ : Store) : task * Store :=
  if loop_test σ then
    match runCycle w σ with
    | (inr true, σ') => (Suspended InterCycle, σ')
    | (inr false, σ') =>
        (Suspended Backoff, push_log "⚠️ 交易循環失敗，等待30秒後重試" σ')
    | (inl e, σ') => (Rejected e, σ')
    end
  else (Returned, stopTrading σ).

Definition startTrading (w : World) (σ : Store) : task * Store :=
  if isTrading σ then (Returned, σ)
  else
    let σ := set_isTrading true σ in
    let now := Date_now w (tick σ) in
    let σ := set_tick (S (tick σ)) (set_stats (set_startTime now (stats σ)) σ) in
    let σ := push_log "🚀 開始自動交易" σ in
    loop_top w σ.

(** The timer of the current suspension fires and the loop runs on to its
    next suspension: after the backoff comes the inter-cycle timer, with no
    test in between; after the inter-cycle timer comes the loop test. *)
Definition resume (w : World) (t : task) (σ : Store) : task * Store :=
  match t with
  | Suspended Backoff => (Suspended InterCycle, σ)
  | Suspended InterCycle => loop_top w σ
  | Returned => (Returned, σ)
  | Rejected e => (Rejected e, σ)
  end.

(** [n] timers fire in a row, nothing else touching the store. *)
Fixpoint run (n : nat) (w : World) (t : task) (σ : Store) : task * Store :=
  match n with
  | O => (t, σ)
  | S n' => let '(t', σ') := resume w t σ in run n' w t' σ'
  end.

(** [startTrading] when [config.value] is a value [v] that is no
    TradeConfig, as loadConfig can leave it ([LoadMistyped v]); the
    statistics are those of the store [σ], whose [config] field has no part
    here.  The loop test reads [config.value.targetVolume] outside every
    [try]: on [null] the read throws and the call is rejected where it
    stands; otherwise the number on the left is compared with the property
    as a number.  When the test fails the call ends through stopTrading.
    When it holds the loop goes on into runCycle with [v] for its
    configuration, where this development does not follow it: [None]. *)
Definition startTrading_mistyped (v : jsval) (w : World) (σ : Store)
    : option (task * Store) :=
  if isTrading σ then Some (Returned, σ)
  else
    let σ := set_isTrading true σ in
    let now := Date_now w (tick σ) in
    let σ := set_tick (S (tick σ)) (set_stats (set_startTime now (stats σ)) σ) in
    let σ := push_log "🚀 開始自動交易" σ in
    match Js.get_prop v "targetVolume" with
    | inl e => Some (Rejected e, σ)
    | inr target =>
        if (totalVolume (stats σ) <? to_number w target)%float then None
        else Some (Returned, stopTrading σ)
    end.

(** ** ConfigStore: the configuration persisted in localStorage *)

(** A string kept by localStorage, as far as this program can tell strings
    apart: it tests the string for emptiness and hands it to [JSON.parse].
    A JSON text is identified with the value [JSON.parse] returns for it. *)
Inductive text :=
| Empty
| JsonText (v : jsval)
| Garbage (s : string).     (* not empty and not a JSON text *)

Module Json.

(** [JSON.stringify] has no notation for NaN and the infinities and
    writes [null]; it writes [-0] as [0]. *)
Definition number (x : float) : jsval :=
  match PrimFloat.classify x with
  | NaN | PInf | NInf => JNull
  | NZero => JNum 0%float
  | _ => JNum x
  end.

(** The value that reading back a serialisation of [v] gives: properties
    holding [undefined] are left out, [undefined] in an array becomes
    [null], an [Error] has no enumerable property. *)
Fixpoint normal (v : jsval) : jsval :=
  match v with
  | JUndefined | JNull | JBool _ | JStr _ => v
  | JNum x => number x
  | JArr items =>
      JArr (map (fun e => match e with
                          | JUndefined => JNull
                          | _ => normal e
                          end) items)
  | JObj props =>
      JObj ((fix walk (ps : list (string * jsval)) : list (string * jsval) :=
               match ps with
               | [] => []
               | (k, JUndefined) :: rest => walk rest
               | (k, e) :: rest => (k, normal e) :: walk rest
               end) props)
  | JErr _ _ => JObj []
  end.

Definition stringify (v : jsval) : text := JsonText (normal v).

Definition parse (t : text) : jsval + jsval :=
  match t with
  | JsonText v => inr v
  | Empty => inl (JErr "SyntaxError" "Unexpected end of JSON input")
  | Garbage _ => inl (JErr "SyntaxError" "Unexpected token")
  end.

End Json.

Definition config_to_js (c : TradeConfig) : jsval :=
  JObj [("fromToken", JStr (fromToken c));
        ("toToken", JStr (toToken c));
        ("contractAddress", JStr (contractAddress c));
        ("minAmount", JNum (minAmount c));
        ("maxAmount", JNum (maxAmount c));
        ("targetVolume", JNum (targetVolume c));
        ("maxLossRate", JNum (maxLossRate c));
        ("minUSDTRequired", JNum (minUSDTRequired c))].

(** The names of the properties of a TradeConfig, in the order in which
    the store declares them and [JSON.stringify] writes them. *)
Definition config_fields : list string :=
  ["fromToken"; "toToken"; "contractAddress"; "minAmount"; "maxAmount";
   "targetVolume"; "maxLossRate"; "minUSDTRequired"].

(** The parsed value seen at type [TradeConfig].  The source assigns the
    parsed object as it is, so the value is a TradeConfig of this model
    only when it has these eight properties, in this order and with
    strings and numbers where the interface has them, and no other
    property: an object with more properties, fewer, or other types keeps
    them in [config.value], where a record of this model cannot. *)
Definition config_of_js (v : jsval) : option TradeConfig :=
  match v with
  | JObj [(k1, JStr a); (k2, JStr b); (k3, JStr c); (k4, JNum d);
          (k5, JNum e); (k6, JNum f); (k7, JNum g); (k8, JNum h)] =>
      if bool_decide ([k1; k2; k3; k4; k5; k6; k7; k8] = config_fields)
      then Some {| fromToken := a; toToken := b; contractAddress := c;
                   minAmount := d; maxAmount := e; targetVolume := f;
                   maxLossRate := g; minUSDTRequired := h |}
      else None
  | _ => None
  end.

Definition config_key : string := "tradingConfig".

(** [localStorage.setItem('tradingConfig', JSON.stringify(config.value))] *)
Definition saveConfig (σ : Store) (localStorage : gmap string text)
    : gmap string text :=
  <[config_key := Json.stringify (config_to_js (config σ))]> localStorage.

(** What a call of [loadConfig] comes to.  The source assigns whatever
    [JSON.parse] returns to [config.value]; when that value is not a
    TradeConfig (see [config_of_js]) the store leaves the types of this
    model, and the outcome records the value that was assigned. *)
Inductive load_outcome :=
| LoadOk (σ : Store)
| LoadMistyped (v : jsval)
| LoadRaised (e : jsval).

Definition loadConfig (localStorage : gmap string text) (σ : Store)
    : load_outcome :=
  match localStorage !! config_key with
  | None | Some Empty => LoadOk σ                  (* [if (savedConfig)] *)
  | Some savedConfig =>
      match Json.parse savedConfig with
      | inl e => LoadRaised e
      | inr v =>
          match config_of_js v with
          | Some c => LoadOk (set_config c σ)
          | None => LoadMistyped v
          end
      end
  end.

(** ** StatsAggregator: the derived views *)

Definition two_digits (z : Z) : string :=
  Js.padStart 2 "0" (Js.int_to_str z).

(** [${hours}:${minutes}:${seconds}], each padded to two digits. *)
Definition hms (hours minutes seconds : Z) : string :=
  two_digits hours +:+ ":" +:+ two_digits minutes +:+ ":" +:+ two_digits seconds.

(** The function given to [computed] for [runningTime]; [now] is the value
    of [Date.now()] when it is evaluated.  [Math.floor(a / b)] is [a / b]
    and [a % b] is [Z.rem a b]. *)
Definition runningTime (now : Z) (σ : Store) : string :=
  if startTime (stats σ) =? 0 then "00:00:00"
  else
    let runningTime := now - startTime (stats σ) in
    let hours := runningTime / (1000 * 60 * 60) in
    let minutes := Z.rem runningTime (1000 * 60 * 60) / (1000 * 60) in
    let seconds := Z.rem runningTime (1000 * 60) / 1000 in
    hms hours minutes seconds.

(** Reading the computed ref.  Vue keeps the value of the last evaluation
    and evaluates the function again only after a reactive value it has
    read was written; here that is [stats.startTime] alone, the clock being
    no reactive value.  [None] is the cache before the first read and after
    such a write. *)
Definition read_runningTime (now : Z) (σ : Store) (cached : option string)
    : string * option string :=
  match cached with
  | Some v => (v, Some v)
  | None => let v := runningTime now σ in (v, Some v)
  end.

(** The computed ref beside the store it reads: [view_cache] is what Vue
    keeps for it. *)
Record View := {
  view_store : Store;
  view_cache : option string
}.

(** The panel reads [store.runningTime] when the clock shows [now]. *)
Definition view_read (now : Z) (v : View) : string * View :=
  let '(shown, cache) := read_runningTime now (view_store v) (view_cache v) in
  (shown, {| view_store := view_store v; view_cache := cache |}).

(** An operation has taken the store to [σ'].  Vue discards the kept value
    when a reactive value that the getter has read is assigned a value
    other than the one it held; the getter reads [stats.startTime] and
    nothing else that is reactive. *)
Definition view_after (σ' : Store) (v : View) : View :=
  {| view_store := σ';
     view_cache :=
       if startTime (stats σ') =? startTime (stats (view_store v))
       then view_cache v else None |}.

Definition profitStatus (σ : Store) : string :=
  if (0 <=? totalProfit (stats σ))%float then "positive" else "negative".

(** ** The vocabulary of the properties *)



(** [σ'] is [σ] but for the count of external reads. *)
Definition only_ticked (σ σ' : Store) : Prop :=
  σ' = set_tick (tick σ') σ.

(** A computation that leaves the store alone but for external reads. *)
Definition reads_only {A} (m : M A) : Prop :=
  forall w σ, only_ticked σ (snd (m w σ)).

(** [σ] after more external reads and more log lines, nothing else. *)
Definition moved (n : nat) (l : list string) (σ : Store) : Store :=
  set_tick n (set_logs (logs σ ++ l) σ).

(** Weakest preconditions: [wp m w σ Q] says that running [m] in world [w]
    from [σ] ends in a result and a store that satisfy [Q]. *)
Definition wp {A} (m : M A) (w : World) (σ : Store)
    (Q : jsval + A -> Store -> Prop) : Prop :=
  Q (fst (m w σ)) (snd (m w σ)).

(** *** MarketClient *)



(** The session cookie is absent from [document.cookie], or empty. *)
Definition no_session_cookie (w : World) (σ : Store) : Prop :=
  match find_cookie "cr00" (Js.split ";" (document_cookie w (tick σ))) with
  | Some c => String.eqb c "" = true
  | None => True
  end.


(** *** CycleEngine *)

(** What a cycle leaves untouched: config and the flags; the log only
    grows. *)
Definition same_frame (σ σ' : Store) : Prop :=
  config σ' = config σ /\ isTrading σ' = isTrading σ /\
  isConnected σ' = isConnected σ /\ exists l, logs σ' = logs σ ++ l.

(** The two ways a cycle ends: failed, with at most [currentBalance]
    rewritten; or completed, with one trade recorded on top of that, whose
    [buyAmount] is the amount drawn from the configured range. *)
Inductive cycle_outcome (w : World) (σ : Store) : bool -> Store -> Prop :=
| cycle_failed σ' :
    same_frame σ σ' ->
    stats σ' = set_currentBalance (currentBalance (stats σ')) (stats σ) ->
    cycle_outcome w σ false σ'
| cycle_completed σ' newTrade :
    same_frame σ σ' ->
    (exists n, buyAmount newTrade = draw_amount (Math_random w n) (config σ)) ->
    stats σ' =
      set_lastUpdated (lastUpdated (stats σ'))
        (record_trade newTrade (buyAmount newTrade)
           (set_currentBalance (currentBalance (stats σ')) (stats σ))) ->
    cycle_outcome w σ true σ'.

(** The sum of [buyAmount] over the history, added up in the order of the
    history, from 0, as the running total is. *)
Definition sum_buyAmount (h : list TradeRecord) : float :=
  fold_left (fun acc r => (acc + buyAmount r)%float) h 0%float.

Definition stats_consistent (s : Stats) : Prop :=
  cyclesCompleted s = Z.of_nat (length (tradeHistory s)) /\
  totalVolume s = sum_buyAmount (tradeHistory s).

(** The states of the store that its operations can produce from the
    initial one: cycles, start and the timers of its loop, stop, edits of
    the configuration by the panel, and loads of the saved one. *)
Inductive reachable : Store -> Prop :=
| reach_initial : reachable initial_store
| reach_runCycle w σ : reachable σ -> reachable (snd (runCycle w σ))
| reach_startTrading w σ : reachable σ -> reachable (snd (startTrading w σ))
| reach_resume w t σ : reachable σ -> reachable (snd (resume w t σ))
| reach_stopTrading σ : reachable σ -> reachable (stopTrading σ)
| reach_edit c σ : reachable σ -> reachable (set_config c σ)
| reach_loadConfig localStorage σ σ' :
    reachable σ -> loadConfig localStorage σ = LoadOk σ' -> reachable σ'.

(** Every cycle run in world [w] under configuration [c] succeeds, and the
    trade it records has [buyAmount = amount]. *)
Definition every_cycle_buys (w : World) (c : TradeConfig) (amount : float)
    : Prop :=
  forall σ, config σ = c ->
    exists σ', runCycle w σ = (inr true, σ') /\
               buyAmount <$> last (tradeHistory (stats σ')) = Some amount.

(** *** Controller *)

(** [startTrading], then [n] timers firing. *)
Definition drive (n : nat) (w : World) (σ : Store) : task * Store :=
  let '(t, σ') := startTrading w σ in run n w t σ'.


(** The running total after [k] purchases of 15, added as the store adds. *)
Fixpoint volume_after (k : nat) : float :=
  match k with
  | O => 0%float
  | S k' => (volume_after k' + 15)%float
  end.

(** The loop is running under configuration [c] and has completed [k]
    cycles of 15. *)
Definition in_run (c : TradeConfig) (k : nat) (σ : Store) : Prop :=
  config σ = c /\ isTrading σ = true /\
  totalVolume (stats σ) = volume_after k /\
  cyclesCompleted (stats σ) = Z.of_nat k.

(** *** Non-interference of [maxLossRate] *)

Definition set_maxLossRate (x : float) (c : TradeConfig) : TradeConfig :=
  {| fromToken := fromToken c; toToken := toToken c;
     contractAddress := contractAddress c; minAmount := minAmount c;
     maxAmount := maxAmount c; targetVolume := targetVolume c;
     maxLossRate := x; minUSDTRequired := minUSDTRequired c |}.

(** The same store with another [maxLossRate]. *)
Definition relabel (x : float) (σ : Store) : Store :=
  set_config (set_maxLossRate x (config σ)) σ.

(** A computation whose result does not depend on [maxLossRate] and which
    hands the field on as it found it. *)
Definition insensitive {A} (m : M A) : Prop :=
  forall x w σ,
    m w (relabel x σ) = (fst (m w σ), relabel x (snd (m w σ))).

(** *** ConfigStore *)

(** A number that [JSON.stringify] writes and [JSON.parse] reads back as
    the same float: finite, and not the negative zero. *)
Definition json_exact (x : float) : bool :=
  match PrimFloat.classify x with
  | NaN | PInf | NInf | NZero => false
  | _ => true
  end.

Definition config_json_exact (c : TradeConfig) : bool :=
  json_exact (minAmount c) && json_exact (maxAmount c) &&
  json_exact (targetVolume c) && json_exact (maxLossRate c) &&
  json_exact (minUSDTRequired c).

(** A number that JSON has a notation for: not NaN and not an infinity. *)
Definition json_finite (x : float) : bool :=
  match PrimFloat.classify x with
  | NaN | PInf | NInf => false
  | _ => true
  end.

Definition config_json_finite (c : TradeConfig) : bool :=
  json_finite (minAmount c) && json_finite (maxAmount c) &&
  json_finite (targetVolume c) && json_finite (maxLossRate c) &&
  json_finite (minUSDTRequired c).

(** The number read back for a finite number that was written: itself,
    but [0] for the negative zero. *)
Definition read_back (x : float) : float :=
  match PrimFloat.classify x with
  | NZero => 0%float
  | _ => x
  end.

Definition config_read_back (c : TradeConfig) : TradeConfig :=
  {| fromToken := fromToken c; toToken := toToken c;
     contractAddress := contractAddress c;
     minAmount := read_back (minAmount c);
     maxAmount := read_back (maxAmount c);
     targetVolume := read_back (targetVolume c);
     maxLossRate := read_back (maxLossRate c);
     minUSDTRequired := read_back (minUSDTRequired c) |}.

(** The record that saveConfig writes for a configuration. *)
Definition saved_record (c : TradeConfig) : jsval :=
  JObj [("fromToken", JStr (fromToken c));
        ("toToken", JStr (toToken c));
        ("contractAddress", JStr (contractAddress c));
        ("minAmount", Json.number (minAmount c));
        ("maxAmount", Json.number (maxAmount c));
        ("targetVolume", Json.number (targetVolume c));
        ("maxLossRate", Json.number (maxLossRate c));
        ("minUSDTRequired", Json.number (minUSDTRequired c))].

(** ** Sample worlds and stores, for closed instances *)

Module Sample.

Definition parse_float (v : jsval) : float :=
  match v with
  | JNum x => x
  | JStr "1000" => 1000%float
  | _ => nan
  end.

Definition quote : jsval :=
  JObj [("code", JStr "000000");
        ("data", JObj [("toCoinAmount", JNum 14.9); ("extra", JStr "route-1")])].

Definition balance : jsval :=
  JObj [("code", JStr "000000");
        ("data",
         JArr [JObj [("accountType", JStr "FUNDING"); ("assetBalances", JArr [])];
               JObj [("accountType", JStr "MAIN");
                     ("assetBalances",
                      JArr [JObj [("asset", JStr "BNB"); ("free", JStr "0.1")];
                            JObj [("asset", JStr "USDT"); ("free", JStr "1000")]])]])].

Definition exchange (r : request) : jsval + jsval :=
  if String.eqb (url r) quote_url then inr quote
  else if String.eqb (url r) balance_url then inr balance
  else inr (JObj [("code", JStr "000000"); ("success", JBool true)]).

(** A signed-in session on an exchange that fills every order. *)
Definition online : World := {|
  MD5 := fun s => "md5:" +:+ s;
  number_to_string := fun _ => "<number>";
  string_to_number := fun _ => nan;
  parseFloat := parse_float;
  toISOString := fun _ => "2025-01-01T00:00:00.000Z";
  document_cookie := fun _ => "lang=en; cr00=0123456789abcdef; theme=dark";
  Date_now := fun n => 1735689600000 + 1000 * Z.of_nat n;
  Math_random := fun _ => 0.5%float;
  axios := fun _ r => exchange r
|}.

(** No session cookie, and no connection. *)
Definition offline : World := {|
  MD5 := fun s => "md5:" +:+ s;
  number_to_string := fun _ => "<number>";
  string_to_number := fun _ => nan;
  parseFloat := parse_float;
  toISOString := fun _ => "2025-01-01T00:00:00.000Z";
  document_cookie := fun _ => "lang=en; theme=dark";
  Date_now := fun n => 1735689600000 + 1000 * Z.of_nat n;
  Math_random := fun _ => 0.5%float;
  axios := fun _ _ => inl (JErr "AxiosError" "Network Error")
|}.

(** minAmount = maxAmount = 15 and targetVolume = 100. *)
Definition fifteen : TradeConfig := {|
  fromToken := "USDT";
  toToken := "B2";
  contractAddress := "0x783c3f003f172c6ac5ac700218a357d2d66ee2a2";
  minAmount := 15;
  maxAmount := 15;
  targetVolume := 100;
  maxLossRate := 0.004;
  minUSDTRequired := 50
|}.

(** A configuration that is to run without a volume target. *)
Definition unbounded : TradeConfig := {|
  fromToken := "USDT";
  toToken := "B2";
  contractAddress := "0x783c3f003f172c6ac5ac700218a357d2d66ee2a2";
  minAmount := 10;
  maxAmount := 20;
  targetVolume := infinity;
  maxLossRate := 0.004;
  minUSDTRequired := 50
|}.

(** The store after [startTrading] in the offline world: the first cycle
    has failed and the loop sits in its backoff timer. *)
Definition backing_off : Store := snd (startTrading offline initial_store).

(** The no-break space U+00A0 and the ideographic space U+3000, in UTF-8. *)
Definition nbsp : string :=
  String (ascii_of_nat 194) (String (ascii_of_nat 160) EmptyString).

Definition ideographic_space : string :=
  String (ascii_of_nat 227)
    (String (ascii_of_nat 128) (String (ascii_of_nat 128) EmptyString)).

End Sample.

(** ** More vocabulary *)

(** No cookie of the list is the one asked for. *)
Definition no_cookie_named (name : string) (cookies : list string) : Prop :=
  Forall (fun c => Js.startsWith (Js.trim c) (name +:+ "=") = false) cookies.

(** A text without a semicolon, as a cookie is in [document.cookie]. *)
Definition no_semicolon (s : string) : Prop :=
  Forall (fun c => c <> ";"%char) (list_ascii_of_string s).

(** The headers of a request made with session cookie [c]. *)
Definition headers_for (w : World) (c : string) : jsval :=
  JObj [("Accept", JStr "*/*");
        ("Content-Type", JStr "application/json");
        ("clienttype", JStr "web");
        ("csrftoken", JStr (MD5 w c))].

(** The session cookie read at the store's next external read. *)
Definition session_cookie (w : World) (σ : Store) : option string :=
  find_cookie "cr00" (Js.split ";" (document_cookie w (tick σ))).

(** An element of a payload array that [find] passes over when it looks
    for the one whose property [key] is the string [wanted]. *)
Definition not_tagged (key wanted : string) (x : jsval) : Prop :=
  exists v, Js.get_prop x key = inr v /\ Js.strict_eq_str v wanted = false.

(** The request getUSDTBalance makes with session cookie [c]. *)
Definition balance_request (w : World) (c : string) : request :=
  {| meth := GET; url := balance_url; body := JUndefined;
     headers := headers_for w c |}.

(** The request that getQuote, buyToken and sellToken make to their URL
    with session cookie [c] and payload [params]. *)
Definition post_request (w : World) (c : string) (u : string) (params : jsval)
    : request :=
  {| meth := POST; url := u; body := params; headers := headers_for w c |}.

(** The sum of [profitLoss] over the history, in the order of the history,
    from 0. *)
Definition sum_profitLoss (h : list TradeRecord) : float :=
  fold_left (fun acc r => (acc + profitLoss r)%float) h 0%float.

(** What a completed cycle writes into the record of its trade. *)
Definition trade_of (w : World) (σ : Store) (r : TradeRecord) : Prop :=
  (exists n, buyAmount r = draw_amount (Math_random w n) (config σ)) /\
  (exists n, time r = toISOString w (Date_now w n)) /\
  profitLoss r = (to_number w (sellAmount r) - buyAmount r)%float /\
  cycleNumber r = cyclesCompleted (stats σ) + 1.

(** The outcome of a cycle in full: when it fails the statistics change in
    [currentBalance] at most; when it completes, the balance it fetched was
    not below the minimum, and one trade is recorded on top of that. *)
Inductive cycle_result (w : World) (σ : Store) : bool -> Store -> Prop :=
| result_failed σ' :
    same_frame σ σ' ->
    stats σ' = set_currentBalance (currentBalance (stats σ')) (stats σ) ->
    cycle_result w σ false σ'
| result_completed σ' newTrade now :
    same_frame σ σ' ->
    trade_of w σ newTrade ->
    (currentBalance (stats σ') <? minUSDTRequired (config σ))%float = false ->
    stats σ' =
      set_lastUpdated now
        (record_trade newTrade (buyAmount newTrade)
           (set_currentBalance (currentBalance (stats σ')) (stats σ))) ->
    cycle_result w σ true σ'.

(** The records of a history carry the numbers 1, 2, 3, ... in order. *)
Definition numbered_from_one (h : list TradeRecord) : Prop :=
  forall i r, h !! i = Some r -> cycleNumber r = Z.of_nat i + 1.

(** What holds of the statistics of every reachable store. *)
Definition stats_ledger (s : Stats) : Prop :=
  stats_consistent s /\
  totalProfit s = sum_profitLoss (tradeHistory s) /\
  numbered_from_one (tradeHistory s).

(** Every cycle run in world [w] fails. *)
Definition every_cycle_fails (w : World) : Prop :=
  forall σ, fst (runCycle w σ) = inr false.

(** What holds of a task and its store however the loop got there: while
    it is suspended the run flag is on; when it has returned the flag is
    off and the stop line is the last line of the log; it is never
    rejected. *)
Definition task_sound (t : task) (σ : Store) : Prop :=
  match t with
  | Suspended _ => isTrading σ = true
  | Returned => isTrading σ = false /\ last (logs σ) = Some "⏹️ 停止交易"
  | Rejected _ => False
  end.

(** The loop may go on: the run flag is on and the target is not reached. *)
Definition may_continue (c : TradeConfig) (volume : float) (σ : Store) : Prop :=
  config σ = c /\ isTrading σ = true /\ totalVolume (stats σ) = volume /\
  (volume <? targetVolume c)%float = true.

(** The suspension the loop is in after [n] timers when every cycle fails:
    backoff right after a cycle, then the inter-cycle delay, in turns. *)
Definition suspension_after (n : nat) : suspension :=
  if Nat.even n then Backoff else InterCycle.

(** The session cookie is missing whenever it is read. *)
Definition always_signed_out (w : World) : Prop :=
  forall σ, no_session_cookie w σ.

(** The world [w] with another exchange behind [axios]. *)
Definition set_axios (a : nat -> request -> jsval + jsval) (w : World) : World :=
  {| MD5 := MD5 w; number_to_string := number_to_string w;
     string_to_number := string_to_number w; parseFloat := parseFloat w;
     toISOString := toISOString w; document_cookie := document_cookie w;
     Date_now := Date_now w; Math_random := Math_random w; axios := a |}.

(** A computation that does not look at the exchange at all. *)
Definition exchange_free {A} (m : M A) : Prop :=
  forall a w σ, m (set_axios a w) σ = m w σ.

(** A computation that, in a world always signed out, does the same
    whatever the exchange would answer. *)
Definition sends_nothing {A} (m : M A) : Prop :=
  forall a w σ, always_signed_out w -> m (set_axios a w) σ = m w σ.


(** An exchange whose balance payload lists no account. *)
Definition no_accounts (n : nat) (r : request) : jsval + jsval :=
  inr (JObj [("code", JStr "000000"); ("data", JArr [])]).

(** An exchange that answers the second external read as the sample
    exchange does, and is out of reach at any other. *)
Definition answers_once (n : nat) (r : request) : jsval + jsval :=
  if Nat.eqb n 1 then Sample.exchange r
  else inl (JErr "AxiosError" "Network Error").

(** A configuration whose target is reached from the start. *)
Definition no_target : TradeConfig := {|
  fromToken := "USDT";
  toToken := "B2";
  contractAddress := "0x783c3f003f172c6ac5ac700218a357d2d66ee2a2";
  minAmount := 10;
  maxAmount := 20;
  targetVolume := 0;
  maxLossRate := 0.004;
  minUSDTRequired := 50
|}.

(** * Properties *)

(** ** Running store code *)

Lemma bind_run {A B} (m : M A) (k : A -> M B) w σ :
  bind m k w σ =
  match m w σ with
  | (inl e, σ') => (inl e, σ')
  | (inr a, σ') => k a w σ'
  end.
Proof. reflexivity. Qed.

Lemma try_catch_run {A} (body : M A) (handler : jsval -> M A) w σ :
  try_catch body handler w σ =
  match body w σ with
  | (inl e, σ') => handler e w σ'
  | (inr a, σ') => (inr a, σ')
  end.
Proof. reflexivity. Qed.


Lemma only_ticked_refl σ : only_ticked σ σ.
Proof. destruct σ; reflexivity. Qed.

Lemma only_ticked_set n σ : only_ticked σ (set_tick n σ).
Proof. reflexivity. Qed.

Lemma only_ticked_trans σ1 σ2 σ3 :
  only_ticked σ1 σ2 -> only_ticked σ2 σ3 -> only_ticked σ1 σ3.
Proof. unfold only_ticked. intros -> ->. reflexivity. Qed.

Lemma reads_only_bind {A B} (m : M A) (k : A -> M B) :
  reads_only m -> (forall a, reads_only (k a)) -> reads_only (bind m k).
Proof.
  intros Hm Hk w σ. rewrite bind_run.
  specialize (Hm w σ). destruct (m w σ) as [[e | a] σ1]; simpl in *.
  - exact Hm.
  - eapply only_ticked_trans; [exact Hm | apply Hk].
Qed.

Lemma reads_only_ret {A} (a : A) : reads_only (ret a).
Proof. intros w σ. apply only_ticked_refl. Qed.

Lemma reads_only_throw {A} e : reads_only (@throw A e).
Proof. intros w σ. apply only_ticked_refl. Qed.

Lemma reads_only_lift {A} (r : jsval + A) : reads_only (lift r).
Proof. intros w σ. apply only_ticked_refl. Qed.

Lemma reads_only_platform {A} (f : World -> A) : reads_only (platform f).
Proof. intros w σ. apply only_ticked_refl. Qed.

Lemma reads_only_external {A} (f : World -> nat -> A) : reads_only (external f).
Proof. intros w σ. apply only_ticked_set. Qed.

Lemma reads_only_send r : reads_only (send r).
Proof. intros w σ. apply only_ticked_set. Qed.

Create HintDb reads discriminated.
#[local] Hint Resolve reads_only_ret reads_only_throw reads_only_lift
  reads_only_platform reads_only_external reads_only_send : reads.

Ltac reads_only_tac :=
  repeat first
    [ apply reads_only_bind; [ | intro ]
    | solve [ auto with reads ]
    | match goal with
      | |- reads_only (match ?x with _ => _ end) => destruct x
      | |- reads_only (if ?b then _ else _) => destruct b
      end ].

Lemma reads_only_getHeaders : reads_only getHeaders.
Proof. unfold getHeaders, getCookieValue. reads_only_tac. Qed.

#[local] Hint Resolve reads_only_getHeaders : reads.

Lemma reads_only_getQuote_try p : reads_only (getQuote_try p).
Proof. unfold getQuote_try, axios_post. reads_only_tac. Qed.

Lemma reads_only_buyToken_try p : reads_only (buyToken_try p).
Proof. unfold buyToken_try, axios_post. reads_only_tac. Qed.

Lemma reads_only_sellToken_try p : reads_only (sellToken_try p).
Proof. unfold sellToken_try, axios_post. reads_only_tac. Qed.

Lemma reads_only_getUSDTBalance_try : reads_only getUSDTBalance_try.
Proof. unfold getUSDTBalance_try, axios_get. reads_only_tac. Qed.

(** ** MarketClient: what ends at the boundary *)

(** The shape shared by the four operations: a [try] block that only reads
    the outside world, and a handler that logs one line and returns the
    sentinel. *)
Lemma guarded_run {A} (body : M A) (line : World -> jsval -> string)
    (sentinel : jsval -> A) w σ :
  reads_only body ->
  exists r σ1,
    body w σ = (r, σ1) /\ only_ticked σ σ1 /\
    try_catch body
      (fun error => log (fun w => line w error) ;;; ret (sentinel error)) w σ
    = match r with
      | inl e => (inr (sentinel e), push_log (line w e) σ1)
      | inr a => (inr a, σ1)
      end.
Proof.
  intros Hbody. rewrite try_catch_run.
  pose proof (Hbody w σ) as Hσ.
  destruct (body w σ) as [[e | a] σ1]; simpl in Hσ.
  - exists (inl e), σ1. repeat split; auto.
  - exists (inr a), σ1. repeat split; auto.
Qed.



Lemma getHeaders_signed_in w σ c :
  session_cookie w σ = Some c -> c <> "" ->
  getHeaders w σ = (inr (headers_for w c), set_tick (S (tick σ)) σ).
Proof.
  unfold session_cookie, getHeaders, getCookieValue. intros Hc Hne.
  rewrite !bind_run. cbn [external ret]. rewrite Hc.
  apply String.eqb_neq in Hne. rewrite Hne. reflexivity.
Qed.









(** ** A weakest-precondition calculus for store code *)

Section WpRules.

Context (w : World) (σ : Store).

Lemma wp_run {A} (m : M A) Q :
  wp m w σ Q -> exists r σ', m w σ = (r, σ') /\ Q r σ'.
Proof. unfold wp. destruct (m w σ) as [r σ']. eauto. Qed.

Lemma wp_bind {A B} (m : M A) (k : A -> M B) Q :
  wp m w σ (fun r σ' => match r with
                        | inl e => Q (inl e) σ'
                        | inr a => wp (k a) w σ' Q
                        end) ->
  wp (bind m k) w σ Q.
Proof.
  unfold wp. rewrite bind_run. destruct (m w σ) as [[e | a] σ']; auto.
Qed.

Lemma wp_try_catch {A} (body : M A) (handler : jsval -> M A) Q :
  wp body w σ (fun r σ' => match r with
                           | inl e => wp (handler e) w σ' Q
                           | inr a => Q (inr a) σ'
                           end) ->
  wp (try_catch body handler) w σ Q.
Proof.
  unfold wp. rewrite try_catch_run. destruct (body w σ) as [[e | a] σ']; auto.
Qed.

Lemma wp_ret {A} (a : A) (Q : jsval + A -> Store -> Prop) :
  Q (inr a) σ -> wp (ret a) w σ Q.
Proof. auto. Qed.

Lemma wp_lift {A} (r : jsval + A) (Q : jsval + A -> Store -> Prop) :
  Q r σ -> wp (lift r) w σ Q.
Proof. auto. Qed.

Lemma wp_gets {A} (f : Store -> A) (Q : jsval + A -> Store -> Prop) :
  Q (inr (f σ)) σ -> wp (gets f) w σ Q.
Proof. auto. Qed.

Lemma wp_modify (f : Store -> Store) (Q : jsval + unit -> Store -> Prop) :
  Q (inr tt) (f σ) -> wp (modify f) w σ Q.
Proof. auto. Qed.

Lemma wp_platform {A} (f : World -> A) (Q : jsval + A -> Store -> Prop) :
  Q (inr (f w)) σ -> wp (platform f) w σ Q.
Proof. auto. Qed.

Lemma wp_external {A} (f : World -> nat -> A)
    (Q : jsval + A -> Store -> Prop) :
  Q (inr (f w (tick σ))) (set_tick (S (tick σ)) σ) -> wp (external f) w σ Q.
Proof. auto. Qed.

Lemma wp_log (line : World -> string) (Q : jsval + unit -> Store -> Prop) :
  Q (inr tt) (push_log (line w) σ) -> wp (log line) w σ Q.
Proof. auto. Qed.

(** The remote operations, seen from the cycle: a value comes back, and the
    store has moved on only in its log and its count of external reads. *)
Lemma wp_guarded {A} (body : M A) (line : World -> jsval -> string)
    (sentinel : jsval -> A) (Q : jsval + A -> Store -> Prop) :
  reads_only body ->
  (forall a n l, Q (inr a) (moved n l σ)) ->
  wp (try_catch body
        (fun error => log (fun w => line w error) ;;; ret (sentinel error)))
     w σ Q.
Proof.
  intros Hbody HQ. unfold wp.
  destruct (guarded_run body line sentinel w σ Hbody) as (r & σ1 & _ & Ht & ->).
  rewrite Ht. destruct r as [e | a]; cbn [fst snd].
  - apply (HQ _ (tick σ1) [line w e]).
  - specialize (HQ a (tick σ1) []). unfold moved in HQ.
    rewrite app_nil_r in HQ. destruct σ; exact HQ.
Qed.

Lemma wp_getQuote p Q :
  (forall v n l, Q (inr v) (moved n l σ)) -> wp (getQuote p) w σ Q.
Proof. apply wp_guarded, reads_only_getQuote_try. Qed.

Lemma wp_buyToken p Q :
  (forall v n l, Q (inr v) (moved n l σ)) -> wp (buyToken p) w σ Q.
Proof.
  apply (wp_guarded (buyToken_try p)
           (fun w e => "❌ 買入代幣錯誤: " +:+ to_str w e)
           (fun e => JObj [("success", JBool false); ("message", e)])),
    reads_only_buyToken_try.
Qed.

Lemma wp_sellToken p Q :
  (forall v n l, Q (inr v) (moved n l σ)) -> wp (sellToken p) w σ Q.
Proof.
  apply (wp_guarded (sellToken_try p)
           (fun w e => "❌ 賣出代幣錯誤: " +:+ to_str w e)
           (fun e => JObj [("success", JBool false); ("message", e)])),
    reads_only_sellToken_try.
Qed.

Lemma wp_getUSDTBalance Q :
  (forall x n l, Q (inr x) (moved n l σ)) -> wp getUSDTBalance w σ Q.
Proof. apply wp_guarded, reads_only_getUSDTBalance_try. Qed.

End WpRules.

Ltac store_simpl :=
  cbn [config stats logs isTrading isConnected tick
       set_config set_stats set_logs set_isTrading set_tick push_log moved
       startBalance currentBalance totalVolume cyclesCompleted totalProfit
       tradeHistory startTime lastUpdated
       set_currentBalance set_totalVolume set_cyclesCompleted set_totalProfit
       set_tradeHistory set_startTime set_lastUpdated record_trade].

Ltac wp_rule :=
  lazymatch goal with
  | |- wp (bind _ _) _ _ _ => apply wp_bind
  | |- wp (try_catch _ _) _ _ _ => apply wp_try_catch
  | |- wp (ret _) _ _ _ => apply wp_ret
  | |- wp (lift ?r) _ _ _ => apply wp_lift; destruct r
  | |- wp (gets _) _ _ _ => apply wp_gets
  | |- wp (modify _) _ _ _ => apply wp_modify
  | |- wp (platform _) _ _ _ => apply wp_platform
  | |- wp (external _) _ _ _ => apply wp_external
  | |- wp (log _) _ _ _ => apply wp_log
  | |- wp (getQuote _) _ _ _ => apply wp_getQuote; intros ? ? ?
  | |- wp (buyToken _) _ _ _ => apply wp_buyToken; intros ? ? ?
  | |- wp (sellToken _) _ _ _ => apply wp_sellToken; intros ? ? ?
  | |- wp getUSDTBalance _ _ _ => apply wp_getUSDTBalance; intros ? ? ?
  | |- wp (if ?b then _ else _) _ _ _ => destruct b eqn:?
  end.

Ltac wp_step := wp_rule; store_simpl.

Ltac close_frame :=
  unfold same_frame; store_simpl; repeat split;
  rewrite <- ?app_assoc; eexists; reflexivity.

(** ** CycleEngine *)

(** A cycle never throws, and ends in one of the two outcomes. *)
Lemma runCycle_spec w σ :
  wp runCycle w σ (fun r σ' => exists b, r = inr b /\ cycle_outcome w σ b σ').
Proof.
  destruct σ as [c s lg tr cn tk].
  unfold runCycle, runCycle_try.
  repeat wp_step.
  all: cbn beta iota.
  all: eexists; split; [ reflexivity | ].
  all: try (eapply cycle_failed; [ close_frame | reflexivity ]).
  all: lazymatch goal with
       | |- context [record_trade ?newTrade _ _] =>
           apply (cycle_completed _ _ _ newTrade);
             [ close_frame | eexists; reflexivity | reflexivity ]
       end.
Qed.

Lemma runCycle_outcome w σ :
  exists b σ', runCycle w σ = (inr b, σ') /\ cycle_outcome w σ b σ'.
Proof.
  destruct (wp_run _ _ _ _ (runCycle_spec w σ)) as (r & σ' & Hrun & b & -> & Hout).
  eauto.
Qed.

Lemma sum_buyAmount_snoc h r :
  sum_buyAmount (h ++ [r]) = (sum_buyAmount h + buyAmount r)%float.
Proof. unfold sum_buyAmount. rewrite fold_left_app. reflexivity. Qed.

Lemma stats_consistent_initial : stats_consistent initial_stats.
Proof. split; reflexivity. Qed.

Lemma stats_consistent_record s newTrade :
  stats_consistent s ->
  stats_consistent (record_trade newTrade (buyAmount newTrade) s).
Proof.
  intros [Hcount Hsum]. split; store_simpl.
  - rewrite length_app, Hcount. cbn [length]. lia.
  - rewrite sum_buyAmount_snoc, Hsum. reflexivity.
Qed.

Lemma cycle_outcome_consistent w σ b σ' :
  cycle_outcome w σ b σ' ->
  stats_consistent (stats σ) -> stats_consistent (stats σ').
Proof.
  intros Hout Hs. destruct Hout as [σ' _ -> | σ' newTrade _ _ ->].
  - exact Hs.
  - apply (stats_consistent_record _ newTrade) in Hs. exact Hs.
Qed.

Lemma runCycle_consistent w σ :
  stats_consistent (stats σ) -> stats_consistent (stats (snd (runCycle w σ))).
Proof.
  intros Hs. destruct (runCycle_outcome w σ) as (b & σ' & -> & Hout).
  exact (cycle_outcome_consistent _ _ _ _ Hout Hs).
Qed.

Lemma loop_top_consistent w σ :
  stats_consistent (stats σ) -> stats_consistent (stats (snd (loop_top w σ))).
Proof.
  intros Hs. unfold loop_top. destruct (loop_test σ); [ | exact Hs ].
  pose proof (runCycle_consistent w σ Hs) as H.
  destruct (runCycle w σ) as [[e | [ | ]] σ']; exact H.
Qed.

Lemma reachable_consistent σ : reachable σ -> stats_consistent (stats σ).
Proof.
  induction 1 as [ | w σ _ IH | w σ _ IH | w t σ _ IH | σ _ IH | c σ _ IH
                 | ls σ σ' _ IH Hload ].
  - exact stats_consistent_initial.
  - apply runCycle_consistent, IH.
  - unfold startTrading. destruct (isTrading σ); [ exact IH | ].
    apply loop_top_consistent. exact IH.
  - destruct t as [[ | ] | | e]; cbn [resume snd]; try exact IH.
    apply loop_top_consistent, IH.
  - exact IH.
  - exact IH.
  - unfold loadConfig in Hload.
    destruct (ls !! config_key) as [[ | v | g] | ]; cbn in Hload.
    + injection Hload as <-. exact IH.
    + destruct (config_of_js v); [ | discriminate ].
      injection Hload as <-. exact IH.
    + discriminate.
    + injection Hload as <-. exact IH.
Qed.

(** C1.  From every reachable state of the store, a call of runCycle
    returns [true] or [false] (it never throws), and after it
    [cyclesCompleted] is the length of [tradeHistory] and [totalVolume] is
    the sum of [buyAmount] over [tradeHistory]. *)
Theorem runCycle_keeps_stats_consistent (w : World) (σ : Store) :
  reachable σ ->
  exists b σ',
    runCycle w σ = (inr b, σ') /\
    cyclesCompleted (stats σ') = Z.of_nat (length (tradeHistory (stats σ'))) /\
    totalVolume (stats σ') = sum_buyAmount (tradeHistory (stats σ')).
Proof.
  intros Hreach. destruct (runCycle_outcome w σ) as (b & σ' & Hrun & Hout).
  exists b, σ'. split; [ exact Hrun | ].
  apply (cycle_outcome_consistent _ _ _ _ Hout), reachable_consistent, Hreach.
Qed.

(** A cycle in the online world, from the initial store. *)
Lemma runCycle_keeps_stats_consistent_witness :
  exists b σ',
    runCycle Sample.online initial_store = (inr b, σ') /\
    cyclesCompleted (stats σ') = Z.of_nat (length (tradeHistory (stats σ'))) /\
    totalVolume (stats σ') = sum_buyAmount (tradeHistory (stats σ')).
Proof.
  exact (runCycle_keeps_stats_consistent Sample.online initial_store reach_initial).
Defined.

Lemma getUSDTBalance_moved w σ r σ1 :
  getUSDTBalance w σ = (r, σ1) ->
  exists bal n l, r = inr bal /\ σ1 = moved n l σ.
Proof.
  intros Hrun.
  assert (wp getUSDTBalance w σ
            (fun r σ1 => exists bal n l, r = inr bal /\ σ1 = moved n l σ)) as H.
  { apply wp_getUSDTBalance. intros bal n l. eauto. }
  unfold wp in H. rewrite Hrun in H. exact H.
Qed.

(** C5.  When the balance that the cycle fetches is below
    [minUSDTRequired], runCycle returns [false]; [tradeHistory],
    [cyclesCompleted] and [totalVolume] are as before, and the statistics
    differ from the earlier ones in [currentBalance] alone. *)
Theorem low_balance_cycle_aborts (w : World) (σ σ1 : Store) (balance : float) :
  getUSDTBalance w σ = (inr balance, σ1) ->
  (balance <? minUSDTRequired (config σ))%float = true ->
  exists σ',
    runCycle w σ = (inr false, σ') /\
    stats σ' = set_currentBalance balance (stats σ) /\
    tradeHistory (stats σ') = tradeHistory (stats σ) /\
    cyclesCompleted (stats σ') = cyclesCompleted (stats σ) /\
    totalVolume (stats σ') = totalVolume (stats σ).
Proof.
  intros Hbal Hlow.
  destruct (getUSDTBalance_moved _ _ _ _ Hbal) as (x & n & l & [= <-] & ->).
  unfold runCycle. rewrite try_catch_run. unfold runCycle_try.
  rewrite bind_run, Hbal.
  rewrite bind_run. cbn [modify].
  rewrite bind_run. cbn [gets]. store_simpl.
  rewrite Hlow, bind_run. cbn [log ret].
  eexists. split; [ reflexivity | ]. store_simpl. auto.
Qed.

(** Offline the balance defaults to 0, below the default minimum of 50. *)
Lemma low_balance_cycle_aborts_witness :
  exists σ',
    runCycle Sample.offline initial_store = (inr false, σ') /\
    stats σ' = set_currentBalance 0 (stats initial_store) /\
    tradeHistory (stats σ') = tradeHistory (stats initial_store) /\
    cyclesCompleted (stats σ') = cyclesCompleted (stats initial_store) /\
    totalVolume (stats σ') = totalVolume (stats initial_store).
Proof.
  apply (low_balance_cycle_aborts Sample.offline initial_store
           (snd (getUSDTBalance Sample.offline initial_store)) 0%float).
  - reflexivity.
  - reflexivity.
Defined.

(** ** Controller: reaching the target *)

Lemma run_snoc n w t σ :
  run (S n) w t σ = let '(t', σ') := run n w t σ in resume w t' σ'.
Proof.
  revert t σ. induction n as [ | n IH]; intros t σ.
  - cbn [run]. destruct (resume w t σ); reflexivity.
  - change (run (S (S n)) w t σ)
      with (let '(t', σ') := resume w t σ in run (S n) w t' σ').
    cbn [run]. destruct (resume w t σ) as [t1 σ1]. rewrite <- IH. reflexivity.
Qed.

(** What a cycle does to the statistics of the loop when it succeeds with a
    given amount. *)
Lemma cycle_buys w c amount σ :
  every_cycle_buys w c amount -> config σ = c ->
  exists σ',
    runCycle w σ = (inr true, σ') /\ config σ' = c /\
    isTrading σ' = isTrading σ /\
    totalVolume (stats σ') = (totalVolume (stats σ) + amount)%float /\
    cyclesCompleted (stats σ') = cyclesCompleted (stats σ) + 1.
Proof.
  intros Hbuys Hc. destruct (Hbuys σ Hc) as (σ' & Hrun & Hlast).
  destruct (runCycle_outcome w σ) as (b & σ2 & Hrun2 & Hout).
  rewrite Hrun in Hrun2. injection Hrun2 as <- <-.
  inversion Hout as [ | σ2 newTrade (Hcfg & Htr & _ & _) _ Hstats]; subst.
  exists σ'. rewrite Hstats in Hlast |- *. store_simpl.
  cbn [stats tradeHistory set_lastUpdated record_trade set_cyclesCompleted
       set_totalProfit set_totalVolume set_tradeHistory] in Hlast.
  rewrite last_snoc in Hlast. injection Hlast as ->. auto.
Qed.

Lemma loop_top_buys w c k σ :
  targetVolume c = 100%float -> every_cycle_buys w c 15%float ->
  in_run c k σ -> (k < 7)%nat ->
  exists σ', loop_top w σ = (Suspended InterCycle, σ') /\ in_run c (S k) σ'.
Proof.
  intros Htarget Hbuys (Hc & Htr & Hvol & Hcount) Hk.
  destruct (cycle_buys w c _ σ Hbuys Hc)
    as (σ' & Hrun & Hc' & Htr' & Hvol' & Hcount').
  exists σ'. unfold loop_top, loop_test.
  rewrite Htr, Hvol, Hc, Htarget.
  assert ((volume_after k <? 100)%float = true) as ->.
  { do 7 (destruct k as [ | k]; [ reflexivity | ]). lia. }
  cbn [andb]. rewrite Hrun. split; [ reflexivity | ].
  unfold in_run. rewrite Hc', Htr', Hvol', Hcount', Htr, Hvol, Hcount.
  cbn [volume_after]. repeat split. lia.
Qed.

Lemma run_buys w c n : forall k σ,
  targetVolume c = 100%float -> every_cycle_buys w c 15%float ->
  in_run c k σ -> (k + n <= 7)%nat ->
  exists σ', run n w (Suspended InterCycle) σ = (Suspended InterCycle, σ') /\
             in_run c (k + n) σ'.
Proof.
  induction n as [ | n IH]; intros k σ Htarget Hbuys Hin Hk.
  - exists σ. rewrite Nat.add_0_r. split; [ reflexivity | exact Hin ].
  - destruct (loop_top_buys w c k σ Htarget Hbuys Hin) as (σ1 & Htop & Hin1);
      [ lia | ].
    destruct (IH (S k) σ1 Htarget Hbuys Hin1) as (σ' & Hrun & Hin'); [ lia | ].
    exists σ'. cbn [run resume]. rewrite Htop, Hrun.
    replace (k + S n)%nat with (S k + n)%nat by lia. auto.
Qed.

Lemma drive_buys w σ n :
  targetVolume (config σ) = 100%float -> isTrading σ = false ->
  totalVolume (stats σ) = 0%float -> cyclesCompleted (stats σ) = 0 ->
  every_cycle_buys w (config σ) 15%float -> (n < 7)%nat ->
  exists σ', drive n w σ = (Suspended InterCycle, σ') /\
             in_run (config σ) (S n) σ'.
Proof.
  intros Htarget Htr Hvol Hcount Hbuys Hn. unfold drive, startTrading.
  rewrite Htr.
  match goal with
  | |- context [loop_top w ?σ0] =>
      destruct (loop_top_buys w (config σ) 0 σ0 Htarget Hbuys) as (σ1 & -> & Hin1)
  end.
  - unfold in_run. store_simpl. auto.
  - lia.
  - destruct (run_buys w (config σ) n 1 σ1 Htarget Hbuys Hin1) as (σ' & -> & Hin');
      [ lia | ].
    exists σ'. auto.
Qed.

(** C6.  With minAmount = maxAmount = 15 and targetVolume = 100, from a
    stopped store with no volume and no cycle yet, in a world where every
    cycle succeeds and buys 15: after startTrading and fewer than 7 timers
    the loop is still running, suspended between cycles, having completed
    one cycle more than timers have fired; and the 7th timer ends it, with
    the run flag off, [cyclesCompleted = 7] and [totalVolume = 105]. *)
Theorem seven_cycles_of_fifteen_reach_target (w : World) (σ : Store) :
  minAmount (config σ) = 15%float -> maxAmount (config σ) = 15%float ->
  targetVolume (config σ) = 100%float ->
  isTrading σ = false ->
  totalVolume (stats σ) = 0%float -> cyclesCompleted (stats σ) = 0 ->
  every_cycle_buys w (config σ) 15%float ->
  (forall n, (n < 7)%nat ->
     exists σn, drive n w σ = (Suspended InterCycle, σn) /\
                isTrading σn = true /\
                cyclesCompleted (stats σn) = Z.of_nat n + 1) /\
  exists σ', drive 7 w σ = (Returned, σ') /\
             isTrading σ' = false /\
             cyclesCompleted (stats σ') = 7 /\
             totalVolume (stats σ') = 105%float.
Proof.
  intros _ _ Htarget Htr Hvol Hcount Hbuys. split.
  - intros n Hn.
    destruct (drive_buys w σ n Htarget Htr Hvol Hcount Hbuys Hn)
      as (σn & Hrun & _ & Htr' & _ & Hcount').
    exists σn. repeat split; auto. lia.
  - destruct (drive_buys w σ 6 Htarget Htr Hvol Hcount Hbuys)
      as (σ6 & Hrun & Hc & Htr' & Hvol' & Hcount'); [ lia | ].
    exists (stopTrading σ6). unfold drive in *.
    destruct (startTrading w σ) as [t0 σ0]. rewrite run_snoc, Hrun.
    cbn [resume]. unfold loop_top, loop_test.
    rewrite Htr', Hvol', Hc, Htarget.
    split; [ reflexivity | ]. unfold stopTrading. store_simpl.
    rewrite Hvol', Hcount'. repeat split.
Qed.

(** In the online world every cycle under [Sample.fifteen] succeeds and
    buys 15. *)
Lemma online_buys_fifteen :
  every_cycle_buys Sample.online Sample.fifteen 15%float.
Proof.
  intros σ Hc.
  destruct (runCycle_outcome Sample.online σ) as (b & σ' & Hrun & Hout).
  assert (fst (runCycle Sample.online σ) = inr true) as Hflag.
  { destruct σ as [c s lg tr cn tk]. cbn [config] in Hc. subst c.
    lazy. reflexivity. }
  rewrite Hrun in Hflag. injection Hflag as ->.
  exists σ'. split; [ exact Hrun | ].
  inversion Hout as [ | σ2 newTrade _ [n Hamount] Hstats]; subst.
  rewrite Hstats. store_simpl. rewrite last_snoc. cbn [fmap option_fmap option_map].
  rewrite Hamount, Hc. reflexivity.
Qed.

Lemma seven_cycles_of_fifteen_reach_target_witness :
  let σ := set_config Sample.fifteen initial_store in
  (forall n, (n < 7)%nat ->
     exists σn, drive n Sample.online σ = (Suspended InterCycle, σn) /\
                isTrading σn = true /\
                cyclesCompleted (stats σn) = Z.of_nat n + 1) /\
  exists σ', drive 7 Sample.online σ = (Returned, σ') /\
             isTrading σ' = false /\
             cyclesCompleted (stats σ') = 7 /\
             totalVolume (stats σ') = 105%float.
Proof.
  apply (seven_cycles_of_fifteen_reach_target Sample.online
           (set_config Sample.fifteen initial_store));
    first [ reflexivity | exact online_buys_fifteen ].
Defined.

(** ** [maxLossRate] is inert *)

Lemma insensitive_bind {A B} (m : M A) (k : A -> M B) :
  insensitive m -> (forall a, insensitive (k a)) -> insensitive (bind m k).
Proof.
  intros Hm Hk x w σ. rewrite !bind_run, Hm.
  destruct (m w σ) as [[e | a] σ1]; cbn [fst snd]; [ reflexivity | apply Hk ].
Qed.

Lemma insensitive_try_catch {A} (body : M A) (handler : jsval -> M A) :
  insensitive body -> (forall e, insensitive (handler e)) ->
  insensitive (try_catch body handler).
Proof.
  intros Hb Hh x w σ. rewrite !try_catch_run, Hb.
  destruct (body w σ) as [[e | a] σ1]; cbn [fst snd]; [ apply Hh | reflexivity ].
Qed.

Lemma insensitive_ret {A} (a : A) : insensitive (ret a).
Proof. intros x w σ. reflexivity. Qed.

Lemma insensitive_throw {A} e : insensitive (@throw A e).
Proof. intros x w σ. reflexivity. Qed.

Lemma insensitive_lift {A} (r : jsval + A) : insensitive (lift r).
Proof. intros x w σ. reflexivity. Qed.

Lemma insensitive_platform {A} (f : World -> A) : insensitive (platform f).
Proof. intros x w σ. reflexivity. Qed.

Lemma insensitive_external {A} (f : World -> nat -> A) :
  insensitive (external f).
Proof. intros x w σ. reflexivity. Qed.

Lemma insensitive_send r : insensitive (send r).
Proof. intros x w σ. reflexivity. Qed.

Lemma insensitive_log line : insensitive (log line).
Proof. intros x w σ. reflexivity. Qed.

(** A read of the store is insensitive when it does not see the field. *)
Lemma insensitive_gets {A} (f : Store -> A) :
  (forall x σ, f (relabel x σ) = f σ) -> insensitive (gets f).
Proof. intros Hf x w σ. unfold gets. rewrite Hf. reflexivity. Qed.

(** A write is insensitive when it carries the field along. *)
Lemma insensitive_modify (f : Store -> Store) :
  (forall x σ, f (relabel x σ) = relabel x (f σ)) -> insensitive (modify f).
Proof. intros Hf x w σ. unfold modify. rewrite Hf. reflexivity. Qed.

Create HintDb inert discriminated.
#[local] Hint Resolve insensitive_ret insensitive_throw insensitive_lift
  insensitive_platform insensitive_external insensitive_send insensitive_log
  : inert.

Ltac insensitive_tac :=
  repeat first
    [ solve [ auto with inert ]
    | apply insensitive_bind; [ | intro ]
    | apply insensitive_try_catch; [ | intro ]
    | apply insensitive_gets; reflexivity
    | apply insensitive_modify; reflexivity
    | match goal with
      | |- insensitive (match ?x with _ => _ end) => destruct x
      | |- insensitive (if ?b then _ else _) => destruct b
      end ].

Lemma insensitive_getHeaders : insensitive getHeaders.
Proof. unfold getHeaders, getCookieValue. insensitive_tac. Qed.

#[local] Hint Resolve insensitive_getHeaders : inert.

Lemma insensitive_getQuote p : insensitive (getQuote p).
Proof. unfold getQuote, getQuote_try, axios_post. insensitive_tac. Qed.

Lemma insensitive_buyToken p : insensitive (buyToken p).
Proof. unfold buyToken, buyToken_try, axios_post. insensitive_tac. Qed.

Lemma insensitive_sellToken p : insensitive (sellToken p).
Proof. unfold sellToken, sellToken_try, axios_post. insensitive_tac. Qed.

Lemma insensitive_getUSDTBalance : insensitive getUSDTBalance.
Proof. unfold getUSDTBalance, getUSDTBalance_try, axios_get. insensitive_tac. Qed.

#[local] Hint Resolve insensitive_getQuote insensitive_buyToken
  insensitive_sellToken insensitive_getUSDTBalance : inert.

Lemma insensitive_runCycle : insensitive runCycle.
Proof. unfold runCycle, runCycle_try. insensitive_tac. Qed.

Lemma stopTrading_relabel x σ :
  stopTrading (relabel x σ) = relabel x (stopTrading σ).
Proof. reflexivity. Qed.

Lemma loop_top_relabel x w σ :
  loop_top w (relabel x σ) = (fst (loop_top w σ), relabel x (snd (loop_top w σ))).
Proof.
  unfold loop_top. change (loop_test (relabel x σ)) with (loop_test σ).
  destruct (loop_test σ); [ | reflexivity ].
  rewrite insensitive_runCycle.
  destruct (runCycle w σ) as [[e | [ | ]] σ']; reflexivity.
Qed.

Lemma startTrading_relabel x w σ :
  startTrading w (relabel x σ) =
  (fst (startTrading w σ), relabel x (snd (startTrading w σ))).
Proof.
  unfold startTrading. change (isTrading (relabel x σ)) with (isTrading σ).
  destruct (isTrading σ); [ reflexivity | ].
  cbv zeta.
  match goal with
  | |- _ = (fst (loop_top w ?σ0), _) => exact (loop_top_relabel x w σ0)
  end.
Qed.

Lemma resume_relabel x w t σ :
  resume w t (relabel x σ) = (fst (resume w t σ), relabel x (snd (resume w t σ))).
Proof.
  destruct t as [[ | ] | | e]; try reflexivity. apply loop_top_relabel.
Qed.

Lemma run_relabel x w n : forall t σ,
  run n w t (relabel x σ) = (fst (run n w t σ), relabel x (snd (run n w t σ))).
Proof.
  induction n as [ | n IH]; intros t σ; cbn [run]; [ reflexivity | ].
  rewrite resume_relabel. destruct (resume w t σ) as [t' σ']. apply IH.
Qed.

(** C10.  Changing [maxLossRate] and nothing else, in the same world,
    changes nothing that runCycle, startTrading (with any number of its
    timers firing) or stopTrading do: they give the same results, and
    stores that are the same but for that field, which they hand on as
    they found it. *)
Theorem maxLossRate_is_inert (x : float) (w : World) (σ : Store) :
  runCycle w (relabel x σ) =
    (fst (runCycle w σ), relabel x (snd (runCycle w σ))) /\
  startTrading w (relabel x σ) =
    (fst (startTrading w σ), relabel x (snd (startTrading w σ))) /\
  (forall n, drive n w (relabel x σ) =
             (fst (drive n w σ), relabel x (snd (drive n w σ)))) /\
  (forall n t, run n w t (relabel x σ) =
               (fst (run n w t σ), relabel x (snd (run n w t σ)))) /\
  stopTrading (relabel x σ) = relabel x (stopTrading σ).
Proof.
  repeat split.
  - apply insensitive_runCycle.
  - apply startTrading_relabel.
  - intros n. unfold drive. rewrite startTrading_relabel.
    destruct (startTrading w σ) as [t σ']. apply run_relabel.
  - intros n t. apply run_relabel.
Qed.

(** ** Controller: stop *)





(** C9, as stated, fails: on the initial store, which is not running,
    stopTrading changes the store (it logs a line), and a second call
    changes it again. *)
Lemma stop_when_idle_counterexample :
  isTrading initial_store = false /\
  stopTrading initial_store <> initial_store /\
  stopTrading (stopTrading initial_store) <> stopTrading initial_store.
Proof. repeat split; discriminate. Qed.

(** C9, amended.  On a store that is not running, [n] calls of stopTrading
    leave the run flag, the configuration, the statistics and everything
    else as they were, except that each call appends one stop line to the
    log. *)
Theorem stop_when_not_running (σ : Store) (n : nat) :
  isTrading σ = false ->
  Nat.iter n stopTrading σ = set_logs (logs σ ++ repeat "⏹️ 停止交易" n) σ.
Proof.
  intros Hidle. induction n as [ | n IH].
  - cbn [repeat]. rewrite app_nil_r. destruct σ; reflexivity.
  - change (Nat.iter (S n) stopTrading σ)
      with (stopTrading (Nat.iter n stopTrading σ)).
    rewrite IH. unfold stopTrading, push_log. store_simpl.
    rewrite <- app_assoc, <- repeat_cons. cbn [repeat].
    clear IH. destruct σ as [c s lg tr cn tk]. cbn [isTrading] in Hidle.
    subst tr. reflexivity.
Qed.

Lemma stop_when_not_running_witness :
  Nat.iter 2 stopTrading initial_store
  = set_logs (logs initial_store ++ repeat "⏹️ 停止交易" 2) initial_store.
Proof. apply (stop_when_not_running initial_store 2). reflexivity. Defined.

(** ** ConfigStore *)

(** C3, as stated, fails: with a saved record that is not JSON, loadConfig
    throws the SyntaxError of JSON.parse; and with no saved record it
    leaves a configuration that has been edited as it is, which is not the
    built-in default. *)
Lemma loadConfig_corrupt_counterexample :
  loadConfig {[ config_key := Garbage "{oops" ]} initial_store
    = LoadRaised (JErr "SyntaxError" "Unexpected token") /\
  loadConfig ∅ (set_config Sample.fifteen initial_store)
    <> LoadOk (set_config default_config initial_store).
Proof. split; [ reflexivity | discriminate ]. Qed.

(** C3, amended.  With no saved record (or an empty one) loadConfig throws
    nothing and leaves the store as it is, so the configuration is the
    built-in default when the store is the initial one.  With a saved
    record that is not JSON it throws.  With a saved JSON value that has
    not the shape of a TradeConfig it throws nothing either, and assigns
    that value as it is. *)
Theorem loadConfig_cases (localStorage : gmap string text) (σ : Store) :
  (localStorage !! config_key = None \/
   localStorage !! config_key = Some Empty ->
   loadConfig localStorage σ = LoadOk σ) /\
  (localStorage !! config_key = None ->
   exists σ', loadConfig localStorage initial_store = LoadOk σ' /\
              config σ' = default_config) /\
  (forall s, localStorage !! config_key = Some (Garbage s) ->
             exists e, loadConfig localStorage σ = LoadRaised e) /\
  (forall v, localStorage !! config_key = Some (JsonText v) ->
             config_of_js v = None ->
             loadConfig localStorage σ = LoadMistyped v).
Proof.
  unfold loadConfig. repeat split.
  - intros [-> | ->]; reflexivity.
  - intros ->. eexists. split; reflexivity.
  - intros s ->. eexists. reflexivity.
  - intros v -> Hv. cbn [Json.parse]. rewrite Hv. reflexivity.
Qed.

Lemma loadConfig_cases_witness :
  loadConfig ∅ initial_store = LoadOk initial_store.
Proof.
  apply (proj1 (loadConfig_cases ∅ initial_store)). left. reflexivity.
Defined.

(** C8, as stated, fails: a configuration with [targetVolume = Infinity]
    is saved with [null] in that field, and what is loaded is not a
    TradeConfig any more. *)
Lemma save_then_load_counterexample :
  loadConfig (saveConfig (set_config Sample.unbounded initial_store) ∅)
    initial_store
  <> LoadOk (set_config Sample.unbounded initial_store).
Proof. vm_compute. discriminate. Qed.

Lemma number_exact x : json_exact x = true -> Json.number x = JNum x.
Proof.
  unfold json_exact, Json.number.
  destruct (PrimFloat.classify x); intros H; try discriminate H; reflexivity.
Qed.

Lemma number_finite x :
  json_finite x = true -> Json.number x = JNum (read_back x).
Proof.
  unfold json_finite, Json.number, read_back.
  destruct (PrimFloat.classify x); intros H; try discriminate H; reflexivity.
Qed.

Lemma number_not_finite x : json_finite x = false -> Json.number x = JNull.
Proof.
  unfold json_finite, Json.number.
  destruct (PrimFloat.classify x); intros H; try discriminate H; reflexivity.
Qed.

Lemma number_cases x :
  Json.number x = JNum (read_back x) /\ json_finite x = true \/
  Json.number x = JNull /\ json_finite x = false.
Proof.
  destruct (json_finite x) eqn:H.
  - left. split; [ apply number_finite, H | reflexivity ].
  - right. split; [ apply number_not_finite, H | reflexivity ].
Qed.

(** What is loaded after a save, for every configuration. *)
Lemma load_saved_record c σ' localStorage :
  localStorage !! config_key = Some (JsonText (saved_record c)) ->
  loadConfig localStorage σ'
  = if config_json_finite c then LoadOk (set_config (config_read_back c) σ')
    else LoadMistyped (saved_record c).
Proof.
  intros Hsaved. unfold loadConfig. rewrite Hsaved. cbn [Json.parse].
  unfold saved_record, config_json_finite, config_read_back.
  destruct (number_cases (minAmount c)) as [[-> ->] | [-> ->]];
    destruct (number_cases (maxAmount c)) as [[-> ->] | [-> ->]];
    destruct (number_cases (targetVolume c)) as [[-> ->] | [-> ->]];
    destruct (number_cases (maxLossRate c)) as [[-> ->] | [-> ->]];
    destruct (number_cases (minUSDTRequired c)) as [[-> ->] | [-> ->]];
    reflexivity.
Qed.

(** C8, amended.  saveConfig writes the complete record over whatever was
    saved: the saved text is the serialisation of the current
    configuration, with each number in its place, and an earlier record has
    no influence on it.  A number that is NaN or an infinity is written as
    [null], the negative zero as [0].  So, whatever loadConfig is called
    on: for a configuration whose numbers are finite and not the negative
    zero, saveConfig followed by loadConfig gives back that configuration,
    field for field; for one whose numbers are finite, it gives back the
    configuration with [0] for each negative zero; and for one with a
    number that is NaN or an infinity, loadConfig assigns the record as it
    was written, with [null] in that place, which is no TradeConfig. *)
Theorem save_then_load (localStorage : gmap string text) (σ σ' : Store) :
  (config_json_exact (config σ) = true ->
   loadConfig (saveConfig σ localStorage) σ'
   = LoadOk (set_config (config σ) σ')) /\
  (config_json_finite (config σ) = true ->
   loadConfig (saveConfig σ localStorage) σ'
   = LoadOk (set_config (config_read_back (config σ)) σ')) /\
  (config_json_finite (config σ) = false ->
   loadConfig (saveConfig σ localStorage) σ'
   = LoadMistyped (saved_record (config σ)) /\
   config_of_js (saved_record (config σ)) = None) /\
  (forall x, json_finite x = false -> Json.number x = JNull) /\
  (forall x, json_finite x = true -> Json.number x = JNum (read_back x)) /\
  (forall x, json_exact x = true -> read_back x = x) /\
  saveConfig σ localStorage !! config_key
    = Some (JsonText (saved_record (config σ))) /\
  saveConfig σ localStorage !! config_key
    = Some (Json.stringify (config_to_js (config σ))) /\
  (forall old : text,
     saveConfig σ (<[config_key := old]> localStorage)
     = saveConfig σ localStorage).
Proof.
  assert (saveConfig σ localStorage !! config_key
          = Some (JsonText (saved_record (config σ)))) as Hsaved
    by (unfold saveConfig; apply lookup_insert_eq).
  pose proof (load_saved_record (config σ) σ' _ Hsaved) as Hload.
  split; [ | split; [ | split; [ | split; [ | split; [ | split;
    [ | split; [ | split ] ] ] ] ] ] ].
  - intros Hexact. unfold config_json_exact in Hexact.
    repeat (apply andb_prop in Hexact; destruct Hexact as [Hexact ?]).
    unfold loadConfig, saveConfig. rewrite lookup_insert_eq.
    unfold Json.stringify, config_to_js. cbn [Json.normal Json.parse].
    rewrite !number_exact by assumption.
    destruct (config σ); reflexivity.
  - intros Hfinite. rewrite Hload, Hfinite. reflexivity.
  - intros Hnot. rewrite Hload, Hnot. split; [ reflexivity | ].
    revert Hnot. unfold saved_record, config_json_finite.
    destruct (number_cases (minAmount (config σ))) as [[-> ->] | [-> ->]];
      destruct (number_cases (maxAmount (config σ))) as [[-> ->] | [-> ->]];
      destruct (number_cases (targetVolume (config σ))) as [[-> ->] | [-> ->]];
      destruct (number_cases (maxLossRate (config σ))) as [[-> ->] | [-> ->]];
      destruct (number_cases (minUSDTRequired (config σ))) as [[-> ->] | [-> ->]];
      intros Hnot; try discriminate Hnot; reflexivity.
  - exact number_not_finite.
  - exact number_finite.
  - intros x. unfold json_exact, read_back.
    destruct (PrimFloat.classify x); intros H; try discriminate H; reflexivity.
  - exact Hsaved.
  - unfold saveConfig. apply lookup_insert_eq.
  - intros old. unfold saveConfig. apply insert_insert_eq.
Qed.

Lemma save_then_load_witness :
  loadConfig (saveConfig initial_store ∅) (set_config Sample.fifteen initial_store)
  = LoadOk (set_config default_config (set_config Sample.fifteen initial_store)).
Proof.
  apply (proj1 (save_then_load ∅ initial_store
                  (set_config Sample.fifteen initial_store))).
  reflexivity.
Defined.

(** ** Examples *)

Example split_cookies :
  Js.split ";" "lang=en; cr00=xyz ;theme=dark" = ["lang=en"; " cr00=xyz "; "theme=dark"].
Proof. reflexivity. Qed.

Example find_session_cookie :
  find_cookie "cr00" (Js.split ";" "lang=en; cr00=xyz ;theme=dark") = Some "xyz".
Proof. reflexivity. Qed.

Example trim_examples :
  Js.trim (Sample.nbsp +:+ "cr00=xyz" +:+ Sample.ideographic_space) = "cr00=xyz" /\
  Js.trim (" a" +:+ Sample.nbsp +:+ "b ") = "a" +:+ Sample.nbsp +:+ "b" /\
  Js.trim (Sample.nbsp +:+ " " +:+ Sample.ideographic_space) = "" /\
  Js.trim "€" = "€".
Proof. repeat split. Qed.

Example find_cookie_after_a_no_break_space :
  find_cookie "cr00" (Js.split ";" ("a=1;" +:+ Sample.nbsp +:+ "cr00=xyz"))
  = Some "xyz".
Proof. reflexivity. Qed.

Example two_digits_examples :
  two_digits 7 = "07" /\ two_digits 123 = "123" /\ two_digits (-1) = "-1".
Proof. repeat split. Qed.

Example runningTime_example :
  runningTime 3725000 (set_stats (set_startTime 1000 initial_stats) initial_store)
  = "01:02:04".
Proof. reflexivity. Qed.

Example runningTime_before_start : runningTime 3725000 initial_store = "00:00:00".
Proof. reflexivity. Qed.

Example online_balance :
  fst (getUSDTBalance Sample.online initial_store) = inr 1000%float.
Proof. reflexivity. Qed.

Example online_first_cycle :
  fst (runCycle Sample.online (set_config Sample.fifteen initial_store)) = inr true /\
  totalVolume (stats (snd (runCycle Sample.online
                             (set_config Sample.fifteen initial_store)))) = 15%float.
Proof. split; reflexivity. Qed.

Example offline_first_cycle :
  fst (runCycle Sample.offline initial_store) = inr false /\
  length (logs (snd (runCycle Sample.offline initial_store))) = 2%nat.
Proof. split; reflexivity. Qed.

Example unbounded_is_saved_with_null :
  saveConfig (set_config Sample.unbounded initial_store) ∅ !! config_key
  = Some (JsonText
            (JObj [("fromToken", JStr "USDT"); ("toToken", JStr "B2");
                   ("contractAddress",
                    JStr "0x783c3f003f172c6ac5ac700218a357d2d66ee2a2");
                   ("minAmount", JNum 10); ("maxAmount", JNum 20);
                   ("targetVolume", JNull); ("maxLossRate", JNum 0.004);
                   ("minUSDTRequired", JNum 50)])).
Proof. reflexivity. Qed.

(** ** Cookies *)

Lemma append_cons (x : ascii) (a b : string) :
  String x a +:+ b = String x (a +:+ b).
Proof. reflexivity. Qed.

Lemma append_assoc (a b c : string) : (a +:+ b) +:+ c = a +:+ (b +:+ c).
Proof.
  induction a as [ | x a IH]; [ reflexivity | ].
  rewrite !append_cons, IH. reflexivity.
Qed.

Lemma length_append (a b : string) :
  String.length (a +:+ b) = (String.length a + String.length b)%nat.
Proof.
  induction a as [ | x a IH]; [ reflexivity | ].
  rewrite append_cons. cbn [String.length Nat.add]. rewrite IH. reflexivity.
Qed.

Lemma prefix_append (p s : string) : String.prefix p (p +:+ s) = true.
Proof.
  induction p as [ | x p IH]; [ destruct s; reflexivity | ].
  rewrite append_cons. cbn [String.prefix].
  destruct (ascii_dec x x); [ exact IH | congruence ].
Qed.

Lemma substring_from_append (p s : string) :
  Js.substring_from (String.length p) (p +:+ s) = s.
Proof.
  induction p as [ | x p IH]; [ destruct s; reflexivity | ].
  rewrite append_cons. cbn [String.length Js.substring_from]. exact IH.
Qed.

Lemma prefix_split (p s : string) :
  String.prefix p s = true ->
  s = p +:+ Js.substring_from (String.length p) s.
Proof.
  revert s. induction p as [ | x p IH]; intros s H.
  - destruct s; reflexivity.
  - destruct s as [ | y s]; cbn [String.prefix] in H; [ discriminate | ].
    destruct (ascii_dec x y) as [<- | ]; [ | discriminate ].
    rewrite append_cons. cbn [String.length Js.substring_from].
    f_equal. apply IH, H.
Qed.

Lemma find_cookie_first name cookies :
  match find_cookie name cookies with
  | Some v =>
      exists before c after,
        cookies = before ++ c :: after /\
        no_cookie_named name before /\
        Js.trim c = name +:+ "=" +:+ v
  | None => no_cookie_named name cookies
  end.
Proof.
  induction cookies as [ | c cookies IH]; cbn [find_cookie].
  - constructor.
  - destruct (Js.startsWith (Js.trim c) (name +:+ "=")) eqn:Hc.
    + exists [], c, cookies. split; [ reflexivity | split; [ constructor | ] ].
      unfold Js.startsWith in Hc. apply prefix_split in Hc.
      rewrite length_append in Hc. rewrite append_assoc in Hc. exact Hc.
    + destruct (find_cookie name cookies) as [v | ].
      * destruct IH as (before & c' & after & -> & Hbefore & Hc').
        exists (c :: before), c', after.
        split; [ reflexivity | split; [ constructor; assumption | exact Hc' ] ].
      * constructor; assumption.
Qed.

(** X1.  getCookieValue reads [document.cookie] once, never throws, and
    returns the value of the first cookie whose text, trimmed of the white
    space of ECMAScript at both ends, begins with the name and an equals
    sign: the rest of that text.  It returns [null] exactly when no cookie
    begins so. *)
Theorem getCookieValue_takes_the_first_match (name : string) (w : World)
    (σ : Store) :
  exists found,
    getCookieValue name w σ = (inr found, set_tick (S (tick σ)) σ) /\
    match found with
    | Some v =>
        exists before c after,
          Js.split ";" (document_cookie w (tick σ)) = before ++ c :: after /\
          no_cookie_named name before /\
          Js.trim c = name +:+ "=" +:+ v
    | None => no_cookie_named name (Js.split ";" (document_cookie w (tick σ)))
    end.
Proof.
  eexists. split; [ reflexivity | ]. apply find_cookie_first.
Qed.

Lemma join_fold (sep : string) (ps : list string) : forall a b,
  fold_left (fun acc q => acc +:+ sep +:+ q) ps (a +:+ b)
  = a +:+ fold_left (fun acc q => acc +:+ sep +:+ q) ps b.
Proof.
  induction ps as [ | q ps IH]; intros a b; cbn [fold_left]; [ reflexivity | ].
  rewrite append_assoc. apply IH.
Qed.

Lemma join_cons (sep p q : string) (ps : list string) :
  Js.join sep (p :: q :: ps) = p +:+ sep +:+ Js.join sep (q :: ps).
Proof.
  unfold Js.join. cbn [fold_left]. rewrite join_fold. f_equal.
  rewrite <- (join_fold sep ps sep q). reflexivity.
Qed.

Lemma no_semicolon_cons x s :
  no_semicolon (String x s) <-> x <> ";"%char /\ no_semicolon s.
Proof.
  unfold no_semicolon. cbn [list_ascii_of_string]. split.
  - intros H. inversion H; subst. auto.
  - intros [Hx Hs]. constructor; assumption.
Qed.

Lemma split_whole s : no_semicolon s -> Js.split ";" s = [s].
Proof.
  induction s as [ | x s IH]; intros H; [ reflexivity | ].
  apply no_semicolon_cons in H as [Hx Hs]. cbn [Js.split].
  apply Ascii.eqb_neq in Hx. rewrite Hx, (IH Hs). reflexivity.
Qed.

Lemma split_append s t :
  no_semicolon s -> Js.split ";" (s +:+ String ";" t) = s :: Js.split ";" t.
Proof.
  induction s as [ | x s IH]; intros H; [ reflexivity | ].
  apply no_semicolon_cons in H as [Hx Hs].
  rewrite append_cons. cbn [Js.split]. apply Ascii.eqb_neq in Hx. rewrite Hx, (IH Hs). reflexivity.
Qed.

Lemma split_join e es :
  Forall no_semicolon (e :: es) ->
  Js.split ";" (Js.join "; " (e :: es)) = e :: map (String " ") es.
Proof.
  revert e. induction es as [ | e' es IH]; intros e H.
  - apply split_whole. apply (Forall_inv H).
  - rewrite join_cons.
    change (e +:+ "; " +:+ Js.join "; " (e' :: es))
      with (e +:+ String ";" (String " " (Js.join "; " (e' :: es)))).
    rewrite split_append by apply (Forall_inv H).
    cbn [Js.split]. change (Ascii.eqb " " ";") with false. cbv iota.
    rewrite IH by apply (Forall_inv_tail H). reflexivity.
Qed.

Lemma find_cookie_spaced name es :
  find_cookie name (map (String " ") es) = find_cookie name es.
Proof.
  induction es as [ | e es IH]; cbn [map find_cookie]; [ reflexivity | ].
  change (Js.trim (String " " e)) with (Js.trim e). rewrite IH. reflexivity.
Qed.

Lemma find_cookie_here name v before after :
  no_cookie_named name before ->
  Js.trim (name +:+ "=" +:+ v) = name +:+ "=" +:+ v ->
  find_cookie name (before ++ (name +:+ "=" +:+ v) :: after) = Some v.
Proof.
  intros Hbefore Hv. induction Hbefore as [ | c before Hc _ IH];
    cbn [app find_cookie].
  - rewrite Hv. unfold Js.startsWith.
    rewrite <- append_assoc, prefix_append.
    replace (String.length name + 1)%nat with (String.length (name +:+ "="))
      by apply length_append.
    rewrite substring_from_append. reflexivity.
  - rewrite Hc. exact IH.
Qed.

Lemma jar_lookup name v before after :
  Forall no_semicolon (before ++ (name +:+ "=" +:+ v) :: after) ->
  Js.trim (name +:+ "=" +:+ v) = name +:+ "=" +:+ v ->
  no_cookie_named name before ->
  find_cookie name
    (Js.split ";" (Js.join "; " (before ++ (name +:+ "=" +:+ v) :: after)))
  = Some v.
Proof.
  intros Hclean Hv Hbefore.
  assert (forall l, l <> [] -> Forall no_semicolon l ->
                    find_cookie name (Js.split ";" (Js.join "; " l))
                    = find_cookie name l) as Hjar.
  { intros [ | e es] Hne Hl; [ congruence | ].
    rewrite split_join by exact Hl. cbn [find_cookie].
    rewrite find_cookie_spaced. reflexivity. }
  rewrite Hjar; [ | destruct before; discriminate | exact Hclean ].
  apply find_cookie_here; assumption.
Qed.

(** X2.  When [document.cookie] lists cookies joined by a semicolon and a
    space, none of them holding a semicolon, and the first of them to begin
    with the name and an equals sign is the text name=value, which trim
    leaves as it is (it has no white space of ECMAScript at its ends, the
    no-break space included), then getCookieValue of the name returns the
    value. *)
Theorem getCookieValue_round_trip (name v : string) (before after : list string)
    (w : World) (σ : Store) :
  Forall no_semicolon (before ++ (name +:+ "=" +:+ v) :: after) ->
  Js.trim (name +:+ "=" +:+ v) = name +:+ "=" +:+ v ->
  no_cookie_named name before ->
  document_cookie w (tick σ)
    = Js.join "; " (before ++ (name +:+ "=" +:+ v) :: after) ->
  getCookieValue name w σ = (inr (Some v), set_tick (S (tick σ)) σ).
Proof.
  intros Hclean Hv Hbefore Hjar. unfold getCookieValue.
  rewrite bind_run. cbn [external ret]. rewrite Hjar.
  rewrite jar_lookup by assumption. reflexivity.
Qed.

Lemma getCookieValue_round_trip_witness :
  getCookieValue "cr00" Sample.online initial_store
  = (inr (Some "0123456789abcdef"), set_tick 1 initial_store).
Proof.
  apply (getCookieValue_round_trip "cr00" "0123456789abcdef"
           ["lang=en"] ["theme=dark"] Sample.online initial_store).
  - repeat constructor; discriminate.
  - reflexivity.
  - repeat constructor.
  - reflexivity.
Defined.

(** X3.  When the [cr00] cookie stands in such a [document.cookie], as a
    text that trim leaves as it is, with a value that is not empty,
    getHeaders returns the four headers, with
    [csrftoken] the MD5 of that value as the cookie is at this call; when
    its value is empty, getHeaders throws the error of the missing cookie.
    Either way it reads the cookies once and touches nothing else. *)
Theorem csrftoken_is_the_MD5_of_cr00 (v : string) (before after : list string)
    (w : World) (σ : Store) :
  Forall no_semicolon (before ++ ("cr00" +:+ "=" +:+ v) :: after) ->
  Js.trim ("cr00" +:+ "=" +:+ v) = "cr00" +:+ "=" +:+ v ->
  no_cookie_named "cr00" before ->
  document_cookie w (tick σ)
    = Js.join "; " (before ++ ("cr00" +:+ "=" +:+ v) :: after) ->
  getHeaders w σ
  = (if String.eqb v ""
     then inl (JErr "Error" "無法找到cr00 cookie")
     else inr (JObj [("Accept", JStr "*/*");
                     ("Content-Type", JStr "application/json");
                     ("clienttype", JStr "web");
                     ("csrftoken", JStr (MD5 w v))]),
     set_tick (S (tick σ)) σ).
Proof.
  intros Hclean Hv Hbefore Hjar. unfold getHeaders, getCookieValue.
  rewrite !bind_run. cbn [external ret]. rewrite Hjar.
  rewrite jar_lookup by assumption.
  destruct (String.eqb v ""); reflexivity.
Qed.

Lemma csrftoken_is_the_MD5_of_cr00_witness :
  getHeaders Sample.online initial_store
  = (inr (JObj [("Accept", JStr "*/*");
                ("Content-Type", JStr "application/json");
                ("clienttype", JStr "web");
                ("csrftoken", JStr "md5:0123456789abcdef")]),
     set_tick 1 initial_store).
Proof.
  apply (csrftoken_is_the_MD5_of_cr00 "0123456789abcdef"
           ["lang=en"] ["theme=dark"] Sample.online initial_store).
  - repeat constructor; discriminate.
  - reflexivity.
  - repeat constructor.
  - reflexivity.
Defined.

(** * Further properties of the store *)

(** ** The outcome of a cycle in full *)

Lemma runCycle_result_wp w σ :
  wp runCycle w σ (fun r σ' => exists b, r = inr b /\ cycle_result w σ b σ').
Proof.
  destruct σ as [c s lg tr cn tk].
  unfold runCycle, runCycle_try.
  repeat wp_step.
  all: cbn beta iota.
  all: eexists; split; [ reflexivity | ].
  all: try (eapply result_failed; [ close_frame | reflexivity ]).
  all: lazymatch goal with
       | |- context [set_lastUpdated ?now (record_trade ?newTrade _ _)] =>
           apply (result_completed _ _ _ newTrade now);
             [ close_frame
             | unfold trade_of; store_simpl; cbn [buyAmount time profitLoss
                 sellAmount cycleNumber];
               split; [ eexists; reflexivity | ];
               split; [ eexists; reflexivity | ]; split; reflexivity
             | store_simpl; assumption
             | reflexivity ]
       end.
Qed.

Lemma runCycle_result w σ :
  exists b σ', runCycle w σ = (inr b, σ') /\ cycle_result w σ b σ'.
Proof.
  destruct (wp_run _ _ _ _ (runCycle_result_wp w σ))
    as (r & σ' & Hrun & b & -> & Hres).
  eauto.
Qed.

Lemma pair_eta {A B} (p : A * B) (a : A) : fst p = a -> p = (a, snd p).
Proof. intros <-. destruct p; reflexivity. Qed.

Lemma offline_first_cycle_fails :
  runCycle Sample.offline initial_store
  = (inr false, snd (runCycle Sample.offline initial_store)).
Proof. apply pair_eta. vm_compute. reflexivity. Qed.

Lemma online_first_cycle_completes :
  runCycle Sample.online (set_config Sample.fifteen initial_store)
  = (inr true, snd (runCycle Sample.online (set_config Sample.fifteen initial_store))).
Proof. apply pair_eta. vm_compute. reflexivity. Qed.

Lemma cycle_result_frame w σ b σ' :
  cycle_result w σ b σ' ->
  config σ' = config σ /\ isTrading σ' = isTrading σ /\
  isConnected σ' = isConnected σ /\
  startBalance (stats σ') = startBalance (stats σ) /\
  startTime (stats σ') = startTime (stats σ) /\
  tradeHistory (stats σ) `prefix_of` tradeHistory (stats σ').
Proof.
  intros [σ1 (Hc & Ht & Hn & _) Hs | σ1 r now (Hc & Ht & Hn & _) _ _ Hs];
    rewrite Hs; store_simpl; repeat split; auto.
  apply prefix_app_r. reflexivity.
Qed.

(** X4.  A cycle that returns [false], at whichever step it gave up, has
    changed nothing of the statistics but [currentBalance]: no trade is
    recorded and no total moves, also when the purchase had gone through
    and the sale failed.  Configuration and run flag are as before. *)
Theorem failed_cycle_keeps_the_books (w : World) (σ σ' : Store) :
  runCycle w σ = (inr false, σ') ->
  stats σ' = set_currentBalance (currentBalance (stats σ')) (stats σ) /\
  config σ' = config σ /\ isTrading σ' = isTrading σ.
Proof.
  intros Hrun. destruct (runCycle_result w σ) as (b & σ1 & Hrun1 & Hres).
  rewrite Hrun in Hrun1. injection Hrun1 as <- <-.
  inversion Hres as [σ1 (Hc & Ht & _) Hs | ]; subst. auto.
Qed.

Lemma failed_cycle_keeps_the_books_witness :
  let σ' := snd (runCycle Sample.offline initial_store) in
  stats σ' = set_currentBalance (currentBalance (stats σ')) (stats initial_store) /\
  config σ' = config initial_store /\ isTrading σ' = isTrading initial_store.
Proof.
  exact (failed_cycle_keeps_the_books Sample.offline initial_store _
           offline_first_cycle_fails).
Defined.

(** X5.  A cycle that returns [true] has appended exactly one record to
    the history.  Its [buyAmount] is the amount drawn from the configured
    range, its [profitLoss] is the proceeds of the sale, as a number, less
    that amount, and its [cycleNumber] is one more than the cycles completed
    before.  [totalVolume] has grown by the [buyAmount], [totalProfit] by
    the [profitLoss], [cyclesCompleted] by one, and the balance fetched at
    the start of the cycle was not below [minUSDTRequired]. *)
Theorem completed_cycle_records_one_trade (w : World) (σ σ' : Store) :
  runCycle w σ = (inr true, σ') ->
  exists newTrade,
    tradeHistory (stats σ') = tradeHistory (stats σ) ++ [newTrade] /\
    trade_of w σ newTrade /\
    totalVolume (stats σ') = (totalVolume (stats σ) + buyAmount newTrade)%float /\
    totalProfit (stats σ') = (totalProfit (stats σ) + profitLoss newTrade)%float /\
    cyclesCompleted (stats σ') = cyclesCompleted (stats σ) + 1 /\
    (currentBalance (stats σ') <? minUSDTRequired (config σ))%float = false.
Proof.
  intros Hrun. destruct (runCycle_result w σ) as (b & σ1 & Hrun1 & Hres).
  rewrite Hrun in Hrun1. injection Hrun1 as <- <-.
  inversion Hres as [ | σ1 newTrade now _ Htrade Hbal Hs]; subst.
  exists newTrade. rewrite Hs. store_simpl. rewrite Hs in Hbal. auto 10.
Qed.

Lemma completed_cycle_records_one_trade_witness :
  let σ := set_config Sample.fifteen initial_store in
  let σ' := snd (runCycle Sample.online σ) in
  exists newTrade,
    tradeHistory (stats σ') = tradeHistory (stats σ) ++ [newTrade] /\
    trade_of Sample.online σ newTrade /\
    totalVolume (stats σ') = (totalVolume (stats σ) + buyAmount newTrade)%float /\
    totalProfit (stats σ') = (totalProfit (stats σ) + profitLoss newTrade)%float /\
    cyclesCompleted (stats σ') = cyclesCompleted (stats σ) + 1 /\
    (currentBalance (stats σ') <? minUSDTRequired (config σ))%float = false.
Proof.
  exact (completed_cycle_records_one_trade Sample.online
           (set_config Sample.fifteen initial_store) _
           online_first_cycle_completes).
Defined.

(** ** The ledger kept by the statistics *)

Lemma sum_profitLoss_snoc h r :
  sum_profitLoss (h ++ [r]) = (sum_profitLoss h + profitLoss r)%float.
Proof. unfold sum_profitLoss. rewrite fold_left_app. reflexivity. Qed.

Lemma numbered_from_one_snoc h r :
  numbered_from_one h -> cycleNumber r = Z.of_nat (length h) + 1 ->
  numbered_from_one (h ++ [r]).
Proof.
  intros Hh Hr i r' Hi. apply lookup_app_Some in Hi as [Hi | [Hlen Hi]].
  - apply Hh, Hi.
  - apply list_lookup_singleton_Some in Hi as [Hi <-].
    rewrite Hr. lia.
Qed.

Lemma stats_ledger_initial : stats_ledger initial_stats.
Proof.
  split; [ exact stats_consistent_initial | split; [ reflexivity | ] ].
  intros i r Hi. destruct i; discriminate Hi.
Qed.

Lemma cycle_result_ledger w σ b σ' :
  cycle_result w σ b σ' -> stats_ledger (stats σ) -> stats_ledger (stats σ').
Proof.
  intros Hres ((Hcount & Hvol) & Hprofit & Hnum).
  destruct Hres as [σ' _ -> | σ' r now _ (_ & _ & _ & Hn) _ ->].
  - repeat split; assumption.
  - split; [ | split ].
    + apply (stats_consistent_record _ r). split; assumption.
    + store_simpl. rewrite sum_profitLoss_snoc, Hprofit. reflexivity.
    + store_simpl. apply numbered_from_one_snoc; [ exact Hnum | ].
      rewrite Hn, Hcount. reflexivity.
Qed.

Lemma runCycle_ledger w σ :
  stats_ledger (stats σ) -> stats_ledger (stats (snd (runCycle w σ))).
Proof.
  intros Hs. destruct (runCycle_result w σ) as (b & σ' & -> & Hres).
  exact (cycle_result_ledger _ _ _ _ Hres Hs).
Qed.

Lemma loop_top_ledger w σ :
  stats_ledger (stats σ) -> stats_ledger (stats (snd (loop_top w σ))).
Proof.
  intros Hs. unfold loop_top. destruct (loop_test σ); [ | exact Hs ].
  pose proof (runCycle_ledger w σ Hs) as H.
  destruct (runCycle w σ) as [[e | [ | ]] σ']; exact H.
Qed.

Lemma loadConfig_only_config ls σ σ' :
  loadConfig ls σ = LoadOk σ' -> σ' = set_config (config σ') σ.
Proof.
  unfold loadConfig.
  destruct (ls !! config_key) as [[ | v | g] | ]; cbn [Json.parse].
  - intros [= <-]. destruct σ; reflexivity.
  - destruct (config_of_js v); [ | discriminate ]. intros [= <-]. reflexivity.
  - discriminate.
  - intros [= <-]. destruct σ; reflexivity.
Qed.

Lemma reachable_ledger σ : reachable σ -> stats_ledger (stats σ).
Proof.
  induction 1 as [ | w σ _ IH | w σ _ IH | w t σ _ IH | σ _ IH | c σ _ IH
                 | ls σ σ' _ IH Hload ].
  - exact stats_ledger_initial.
  - apply runCycle_ledger, IH.
  - unfold startTrading. destruct (isTrading σ); [ exact IH | ].
    apply loop_top_ledger. exact IH.
  - destruct t as [[ | ] | | e]; cbn [resume snd]; try exact IH.
    apply loop_top_ledger, IH.
  - exact IH.
  - exact IH.
  - apply loadConfig_only_config in Hload. rewrite Hload. exact IH.
Qed.

Lemma first_trade_history :
  exists r,
    tradeHistory (stats (snd (runCycle Sample.online
                                (set_config Sample.fifteen initial_store)))) = [r].
Proof.
  destruct (runCycle_result Sample.online (set_config Sample.fifteen initial_store))
    as (b & σ' & Hrun & Hres).
  assert (fst (runCycle Sample.online (set_config Sample.fifteen initial_store))
          = inr true) as Hflag by (vm_compute; reflexivity).
  rewrite Hrun in Hflag |- *. cbn [fst snd] in Hflag |- *.
  injection Hflag as ->.
  inversion Hres as [ | σ1 r now _ _ _ Hs]. exists r. rewrite Hs. reflexivity.
Qed.

(** A store with one completed trade, for closed instances. *)
Lemma reachable_after_one_trade :
  reachable (snd (runCycle Sample.online (set_config Sample.fifteen initial_store))).
Proof. apply reach_runCycle, reach_edit, reach_initial. Qed.

(** X6.  In every reachable store [totalProfit] is the sum of [profitLoss]
    over the trade history, added up in the order of the history. *)
Theorem totalProfit_is_the_sum_of_the_history (σ : Store) :
  reachable σ ->
  totalProfit (stats σ) = sum_profitLoss (tradeHistory (stats σ)).
Proof. intros H. apply reachable_ledger in H. apply H. Qed.

Lemma totalProfit_is_the_sum_of_the_history_witness :
  let σ := snd (runCycle Sample.online (set_config Sample.fifteen initial_store)) in
  totalProfit (stats σ) = sum_profitLoss (tradeHistory (stats σ)).
Proof.
  apply (totalProfit_is_the_sum_of_the_history _ reachable_after_one_trade).
Defined.

(** X7.  In every reachable store the records of the trade history carry
    the cycle numbers 1, 2, 3, ... in the order of the history: the record
    at index [i] has [cycleNumber = i + 1]. *)
Theorem cycle_numbers_count_from_one (σ : Store) (i : nat) (r : TradeRecord) :
  reachable σ ->
  tradeHistory (stats σ) !! i = Some r ->
  cycleNumber r = Z.of_nat i + 1.
Proof. intros H. apply reachable_ledger in H. apply H. Qed.

Lemma cycle_numbers_count_from_one_witness :
  exists r,
    tradeHistory (stats (snd (runCycle Sample.online
                                (set_config Sample.fifteen initial_store)))) !! 0%nat
      = Some r /\
    cycleNumber r = 1.
Proof.
  destruct first_trade_history as (r & Hh).
  exists r. rewrite Hh. split; [ reflexivity | ].
  apply (cycle_numbers_count_from_one _ 0 _ reachable_after_one_trade).
  rewrite Hh. reflexivity.
Defined.

(** ** What the operations never write *)

Lemma loop_top_frame w σ :
  let σ' := snd (loop_top w σ) in
  config σ' = config σ /\ isConnected σ' = isConnected σ /\
  startBalance (stats σ') = startBalance (stats σ) /\
  startTime (stats σ') = startTime (stats σ) /\
  tradeHistory (stats σ) `prefix_of` tradeHistory (stats σ').
Proof.
  unfold loop_top. destruct (loop_test σ).
  - destruct (runCycle_result w σ) as (b & σ1 & -> & Hres).
    apply cycle_result_frame in Hres as (Hc & _ & Hn & Hb & Ht & Hh).
    destruct b; cbn; auto.
  - cbn. auto.
Qed.

Lemma resume_frame w t σ :
  let σ' := snd (resume w t σ) in
  config σ' = config σ /\ isConnected σ' = isConnected σ /\
  startBalance (stats σ') = startBalance (stats σ) /\
  startTime (stats σ') = startTime (stats σ) /\
  tradeHistory (stats σ) `prefix_of` tradeHistory (stats σ').
Proof.
  destruct t as [[ | ] | | e]; cbn [resume]; try (cbn; auto; fail).
  apply loop_top_frame.
Qed.

Lemma run_frame w n : forall t σ,
  let σ' := snd (run n w t σ) in
  config σ' = config σ /\ isConnected σ' = isConnected σ /\
  startBalance (stats σ') = startBalance (stats σ) /\
  startTime (stats σ') = startTime (stats σ) /\
  tradeHistory (stats σ) `prefix_of` tradeHistory (stats σ').
Proof.
  induction n as [ | n IH]; intros t σ; cbn [run].
  - cbn. auto.
  - pose proof (resume_frame w t σ) as H. destruct (resume w t σ) as [t1 σ1].
    cbn [snd] in H. destruct H as (Hc & Hn & Hb & Ht & Hh).
    destruct (IH t1 σ1) as (Hc' & Hn' & Hb' & Ht' & Hh').
    cbv zeta. rewrite Hc', Hn', Hb', Ht'. repeat split; auto.
    etransitivity; eassumption.
Qed.

Lemma startTrading_frame w σ :
  let σ' := snd (startTrading w σ) in
  config σ' = config σ /\ isConnected σ' = isConnected σ /\
  startBalance (stats σ') = startBalance (stats σ) /\
  tradeHistory (stats σ) `prefix_of` tradeHistory (stats σ').
Proof.
  unfold startTrading. destruct (isTrading σ); [ cbn; auto | ]. cbv zeta.
  match goal with
  | |- context [loop_top w ?σ0] =>
      destruct (loop_top_frame w σ0) as (Hc & Hn & Hb & _ & Hh)
  end.
  rewrite Hc, Hn, Hb. auto.
Qed.

Lemma reachable_untouched σ :
  reachable σ -> startBalance (stats σ) = 0%float /\ isConnected σ = false.
Proof.
  induction 1 as [ | w σ _ IH | w σ _ IH | w t σ _ IH | σ _ IH | c σ _ IH
                 | ls σ σ' _ IH Hload ].
  - split; reflexivity.
  - destruct (runCycle_result w σ) as (b & σ' & -> & Hres). cbn [snd].
    apply cycle_result_frame in Hres as (_ & _ & -> & -> & _). exact IH.
  - pose proof (startTrading_frame w σ) as H. cbv zeta in H.
    destruct H as (_ & -> & -> & _). exact IH.
  - pose proof (resume_frame w t σ) as H. cbv zeta in H.
    destruct H as (_ & -> & -> & _). exact IH.
  - exact IH.
  - exact IH.
  - apply loadConfig_only_config in Hload. rewrite Hload. exact IH.
Qed.

(** X8.  No operation of the store writes [startBalance] or [isConnected]:
    in every reachable store [startBalance] is still 0 and [isConnected]
    is still [false]. *)
Theorem startBalance_and_isConnected_are_never_written (σ : Store) :
  reachable σ -> startBalance (stats σ) = 0%float /\ isConnected σ = false.
Proof. exact (reachable_untouched σ). Qed.

Lemma startBalance_and_isConnected_are_never_written_witness :
  let σ := snd (runCycle Sample.online (set_config Sample.fifteen initial_store)) in
  startBalance (stats σ) = 0%float /\ isConnected σ = false.
Proof.
  exact (startBalance_and_isConnected_are_never_written _ reachable_after_one_trade).
Defined.

(** X9.  The trade history is only ever appended to: after a cycle, after
    startTrading, after any number of timers of the loop, and after
    stopTrading, the earlier history is a prefix of the later one.  A new
    start does not clear it. *)
Theorem tradeHistory_is_append_only (w : World) (σ : Store) :
  tradeHistory (stats σ) `prefix_of` tradeHistory (stats (snd (runCycle w σ))) /\
  tradeHistory (stats σ) `prefix_of` tradeHistory (stats (snd (startTrading w σ))) /\
  (forall n t,
     tradeHistory (stats σ) `prefix_of` tradeHistory (stats (snd (run n w t σ)))) /\
  (forall n,
     tradeHistory (stats σ) `prefix_of` tradeHistory (stats (snd (drive n w σ)))) /\
  tradeHistory (stats (stopTrading σ)) = tradeHistory (stats σ).
Proof.
  split; [ | split; [ | split; [ | split ] ] ].
  - destruct (runCycle_result w σ) as (b & σ' & -> & Hres).
    apply cycle_result_frame in Hres. apply Hres.
  - apply startTrading_frame.
  - intros n t. apply run_frame.
  - intros n. unfold drive.
    pose proof (startTrading_frame w σ) as (_ & _ & _ & H1).
    destruct (startTrading w σ) as [t σ1]. cbn [snd] in H1.
    etransitivity; [ exact H1 | apply run_frame ].
  - reflexivity.
Qed.

(** ** The life of the drive loop *)

Lemma loop_top_sound w σ : task_sound (fst (loop_top w σ)) (snd (loop_top w σ)).
Proof.
  unfold loop_top, loop_test. destruct (isTrading σ) eqn:Htr; cbn [andb].
  - destruct (_ <? _)%float.
    + destruct (runCycle_result w σ) as (b & σ1 & -> & Hres).
      apply cycle_result_frame in Hres as (_ & Ht & _).
      destruct b; cbn; congruence.
    + cbn. split; [ reflexivity | apply last_snoc ].
  - cbn. split; [ reflexivity | apply last_snoc ].
Qed.

Lemma resume_sound w t σ :
  task_sound t σ -> task_sound (fst (resume w t σ)) (snd (resume w t σ)).
Proof.
  destruct t as [[ | ] | | e]; cbn [resume fst snd]; auto.
  intros _. apply loop_top_sound.
Qed.

Lemma run_sound w n : forall t σ,
  task_sound t σ -> task_sound (fst (run n w t σ)) (snd (run n w t σ)).
Proof.
  induction n as [ | n IH]; intros t σ Hs; cbn [run]; [ exact Hs | ].
  pose proof (resume_sound w t σ Hs) as H.
  destruct (resume w t σ) as [t1 σ1]. apply IH, H.
Qed.

(** X10.  With a TradeConfig for its configuration, a call of startTrading
    on a store that is not running never ends in an exception, however
    many of its timers have fired: it is either suspended in a timer, with
    the run flag on, or it has returned, and then through stopTrading: the
    run flag is off and the stop line is the last line of the log.  Not so
    once loadConfig has read the text null: it assigns [null] for the
    configuration, and the call is rejected with the TypeError of its first
    loop test, after the start line and without stopTrading; the run flag
    stays on, so that the next startTrading returns at once. *)
Theorem the_loop_ends_only_through_stopTrading (w : World) (σ : Store) (n : nat) :
  isTrading σ = false ->
  match drive n w σ with
  | (Suspended _, σ') => isTrading σ' = true
  | (Returned, σ') => isTrading σ' = false /\ last (logs σ') = Some "⏹️ 停止交易"
  | (Rejected _, _) => False
  end /\
  (forall localStorage,
     localStorage !! config_key = Some (JsonText JNull) ->
     loadConfig localStorage σ = LoadMistyped JNull) /\
  exists σ',
    startTrading_mistyped JNull w σ
      = Some (Rejected (Js.TypeError "Cannot read properties of null"), σ') /\
    isTrading σ' = true /\
    last (logs σ') = Some "🚀 開始自動交易" /\
    stats σ' = set_startTime (Date_now w (tick σ)) (stats σ) /\
    (forall v, startTrading_mistyped v w σ' = Some (Returned, σ')) /\
    startTrading w σ' = (Returned, σ').
Proof.
  intros Hidle. split; [ | split ].
  - unfold drive, startTrading. rewrite Hidle. cbv zeta.
    match goal with
    | |- context [loop_top w ?σ0] => pose proof (loop_top_sound w σ0) as H0;
                                      destruct (loop_top w σ0) as [t0 σ1]
    end.
    pose proof (run_sound w n t0 σ1 H0) as H.
    destruct (run n w t0 σ1) as [[d | | e] σ']; exact H.
  - intros localStorage Hnull. unfold loadConfig. rewrite Hnull. reflexivity.
  - unfold startTrading_mistyped. rewrite Hidle. cbv zeta.
    cbn [Js.get_prop]. eexists. split; [ reflexivity | ].
    split; [ reflexivity | ].
    split; [ apply last_snoc | ].
    split; [ reflexivity | ].
    split; [ intros v | ]; reflexivity.
Qed.

Lemma the_loop_ends_only_through_stopTrading_witness :
  match drive 3 Sample.offline initial_store with
  | (Suspended _, σ') => isTrading σ' = true
  | (Returned, σ') => isTrading σ' = false /\ last (logs σ') = Some "⏹️ 停止交易"
  | (Rejected _, _) => False
  end.
Proof.
  pose proof (the_loop_ends_only_through_stopTrading Sample.offline
                initial_store 3 eq_refl) as H.
  apply proj1 in H. exact H.
Defined.

(** X11.  A call of startTrading on a store that is not running stamps
    [startTime] with the reading of the clock it takes, and the stamp stays
    through the cycles and timers of its loop.  A call on a store that is
    running returns at once: it changes nothing and reads nothing, and
    timers have nothing to resume. *)
Theorem startTime_is_stamped_once_per_start (w : World) (σ : Store) (n : nat) :
  (isTrading σ = false ->
   startTime (stats (snd (drive n w σ))) = Date_now w (tick σ)) /\
  (isTrading σ = true -> drive n w σ = (Returned, σ)).
Proof.
  split; intros Htr; unfold drive, startTrading; rewrite Htr; cbv zeta.
  - match goal with
    | |- context [loop_top w ?σ0] =>
        pose proof (loop_top_frame w σ0) as H0;
        destruct (loop_top w σ0) as [t0 σ1]
    end.
    cbv zeta in H0. cbn [snd] in H0. destruct H0 as (_ & _ & _ & Ht0 & _).
    pose proof (run_frame w n t0 σ1) as H. cbv zeta in H.
    destruct H as (_ & _ & _ & Ht & _). rewrite Ht, Ht0. reflexivity.
  - induction n as [ | n IH]; [ reflexivity | exact IH ].
Qed.

Lemma startTime_is_stamped_once_per_start_witness :
  startTime (stats (snd (drive 3 Sample.offline initial_store))) = 1735689600000.
Proof.
  exact (proj1 (startTime_is_stamped_once_per_start Sample.offline initial_store 3)
           eq_refl).
Defined.

(** ** StatsAggregator: the running time *)

(** C7, as stated, fails: after a stop the store is not running, yet the
    running time, read then for the first time, is not a time fixed at the
    stop; it is the time from the start to the moment of the read: read one
    second after the start it is one second, read four seconds after the
    start it is four.  So it is for the view that was not read while the
    loop ran: its first read after the stop shows the time up to that
    read. *)
Lemma runningTime_not_frozen_counterexample :
  let σ := stopTrading Sample.backing_off in
  isTrading σ = false /\
  fst (read_runningTime (startTime (stats σ) + 1000) σ None) = "00:00:01" /\
  fst (read_runningTime (startTime (stats σ) + 4000) σ None) = "00:00:04" /\
  runningTime (startTime (stats σ) + 1000) σ
    <> runningTime (startTime (stats σ) + 4000) σ /\
  fst (view_read (startTime (stats σ) + 4000)
         (view_after σ {| view_store := Sample.backing_off;
                          view_cache := None |})) = "00:00:04".
Proof. vm_compute. repeat split; discriminate. Qed.

Lemma runCycle_startTime w σ :
  startTime (stats (snd (runCycle w σ))) = startTime (stats σ).
Proof.
  destruct (runCycle_result w σ) as (b & σ' & -> & Hres).
  apply cycle_result_frame in Hres as (_ & _ & _ & _ & Ht & _). exact Ht.
Qed.

Lemma read_again (now later : Z) (σ σ' : Store) (cache : option string) :
  startTime (stats σ') = startTime (stats σ) ->
  let v := {| view_store := σ; view_cache := cache |} in
  fst (view_read later (view_after σ' (snd (view_read now v))))
  = fst (view_read now v).
Proof.
  intros Hsame. cbv zeta. unfold view_read, view_after, read_runningTime.
  cbn [view_store view_cache].
  destruct cache as [shown | ]; cbn [fst snd view_store view_cache];
    apply Z.eqb_eq in Hsame; rewrite Hsame; reflexivity.
Qed.

(** C7, amended.  An evaluation of the running time gives 00:00:00 while
    [startTime] is 0.  Once a start has set [startTime], and with a clock
    that is not behind it, an evaluation gives the time elapsed since
    [startTime], in whole hours, minutes below 60 and seconds below 60,
    each written with two digits at least; and it does so whether the store
    is running or not: the run flag has no part in it, and stopTrading
    records no elapsed time.  A read of the view evaluates it when it has
    not been read before; a later read, after a stop, a cycle, a timer of
    the loop or a start that was ignored, evaluates nothing and shows what
    the earlier read showed, whatever the clock and running or not; and the
    first read after a start that has stamped a new [startTime] evaluates
    it again, from that stamp. *)
Theorem runningTime_follows_clock (now later : Z) (w : World) (σ : Store)
    (cache : option string) :
  (startTime (stats σ) = 0 -> runningTime now σ = "00:00:00") /\
  (startTime (stats σ) <> 0 -> startTime (stats σ) <= now ->
   exists h m s ms,
     now - startTime (stats σ) = ((h * 60 + m) * 60 + s) * 1000 + ms /\
     0 <= h /\ 0 <= m < 60 /\ 0 <= s < 60 /\ 0 <= ms < 1000 /\
     runningTime now σ = hms h m s) /\
  (forall b, runningTime now (set_isTrading b σ) = runningTime now σ) /\
  runningTime now (stopTrading σ) = runningTime now σ /\
  view_read now {| view_store := σ; view_cache := None |}
    = (runningTime now σ,
       {| view_store := σ; view_cache := Some (runningTime now σ) |}) /\
  (forall σ',
     σ' = stopTrading σ \/ σ' = snd (runCycle w σ) \/
     (exists t, σ' = snd (resume w t σ)) \/
     (isTrading σ = true /\ σ' = snd (startTrading w σ)) ->
     let v := {| view_store := σ; view_cache := cache |} in
     fst (view_read later (view_after σ' (snd (view_read now v))))
     = fst (view_read now v)) /\
  (isTrading σ = false -> Date_now w (tick σ) <> startTime (stats σ) ->
   let σ' := snd (startTrading w σ) in
   startTime (stats σ') = Date_now w (tick σ) /\
   fst (view_read later
          (view_after σ' {| view_store := σ; view_cache := cache |}))
   = runningTime later σ').
Proof.
  split; [ | split; [ | split; [ | split; [ | split; [ | split ] ] ] ] ].
  - intros Hzero. unfold runningTime. rewrite Hzero. reflexivity.
  - intros Hstarted Hclock.
    unfold runningTime. apply Z.eqb_neq in Hstarted. rewrite Hstarted.
    set (e := now - startTime (stats σ)).
    assert (0 <= e) as He by (unfold e; lia).
    rewrite !Z.rem_mod_nonneg by lia.
    change (1000 * 60 * 60) with 3600000. change (1000 * 60) with 60000.
    exists (e / 3600000), (e mod 3600000 / 60000), (e mod 60000 / 1000),
           (e mod 1000).
    cbv zeta. clearbody e.
    repeat split; try reflexivity; Z.to_euclidean_division_equations; lia.
  - intros b. reflexivity.
  - reflexivity.
  - reflexivity.
  - intros σ' Hop. apply read_again.
    destruct Hop as [-> | [-> | [[t ->] | [Hon ->]]]].
    + reflexivity.
    + apply runCycle_startTime.
    + pose proof (resume_frame w t σ) as H. cbv zeta in H. apply H.
    + unfold startTrading. rewrite Hon. reflexivity.
  - intros Hoff Hnew. cbv zeta.
    assert (startTime (stats (snd (startTrading w σ))) = Date_now w (tick σ))
      as Hstamp.
    { unfold startTrading. rewrite Hoff. cbv zeta.
      match goal with
      | |- context [loop_top w ?σ0] =>
          pose proof (loop_top_frame w σ0) as H0
      end.
      cbv zeta in H0. destruct H0 as (_ & _ & _ & -> & _). reflexivity. }
    split; [ exact Hstamp | ].
    unfold view_read, view_after, read_runningTime.
    cbn [view_store view_cache]. rewrite Hstamp.
    apply Z.eqb_neq in Hnew. rewrite Hnew. reflexivity.
Qed.

Lemma runningTime_follows_clock_witness :
  let σ := stopTrading Sample.backing_off in
  exists h m s ms,
    4000 = ((h * 60 + m) * 60 + s) * 1000 + ms /\
    0 <= h /\ 0 <= m < 60 /\ 0 <= s < 60 /\ 0 <= ms < 1000 /\
    runningTime 1735689604000 σ = hms h m s.
Proof.
  apply (proj1 (proj2 (runningTime_follows_clock 1735689604000 0 Sample.offline
                         (stopTrading Sample.backing_off) None)));
    vm_compute; discriminate.
Defined.

(** ** Retrying *)

Lemma loop_top_fails w c volume σ :
  every_cycle_fails w -> may_continue c volume σ ->
  exists σ', loop_top w σ = (Suspended Backoff, σ') /\
             may_continue c volume σ' /\
             tradeHistory (stats σ') = tradeHistory (stats σ).
Proof.
  intros Hfail (Hc & Htr & Hvol & Hlt). unfold loop_top, loop_test.
  rewrite Htr, Hvol, Hc, Hlt. cbn [andb].
  destruct (runCycle_result w σ) as (b & σ1 & Hrun & Hres).
  pose proof (Hfail σ) as Hb. rewrite Hrun in Hb. cbn [fst] in Hb.
  injection Hb as ->. rewrite Hrun.
  inversion Hres as [σ2 (Hc1 & Htr1 & _) Hs | ]; subst.
  eexists. split; [ reflexivity | ].
  unfold may_continue. store_simpl. rewrite Hs, Hc1, Htr1. store_simpl. auto.
Qed.

Lemma run_fails w c volume n : forall σ,
  every_cycle_fails w -> may_continue c volume σ ->
  (exists σ', run n w (Suspended Backoff) σ = (Suspended (suspension_after n), σ') /\
              may_continue c volume σ' /\
              tradeHistory (stats σ') = tradeHistory (stats σ)) /\
  (exists σ', run n w (Suspended InterCycle) σ
              = (Suspended (suspension_after (S n)), σ') /\
              may_continue c volume σ' /\
              tradeHistory (stats σ') = tradeHistory (stats σ)).
Proof.
  induction n as [ | n IH]; intros σ Hfail Hgo.
  - split; exists σ; auto.
  - split.
    + destruct (IH σ Hfail Hgo) as (_ & σ' & Hrun & Hgo' & Hh).
      exists σ'. cbn [run resume]. rewrite Hrun. auto.
    + destruct (loop_top_fails w c volume σ Hfail Hgo) as (σ1 & Htop & Hgo1 & Hh1).
      destruct (IH σ1 Hfail Hgo1) as ((σ' & Hrun & Hgo' & Hh) & _).
      exists σ'. cbn [run resume]. rewrite Htop, Hrun.
      unfold suspension_after. rewrite Nat.even_succ_succ.
      rewrite Hh, Hh1. auto.
Qed.

(** X12.  The loop has no limit on failures.  In a world where every cycle
    fails, started on a store that is not running and is below its target
    volume, the loop is still suspended after any number of timers, never
    returned: in the backoff delay after an even number of timers and in
    the inter-cycle delay after an odd number, so that a failed cycle is
    tried again after both delays.  The trade history and [totalVolume]
    stay as they were. *)
Theorem failed_cycles_are_retried_forever (w : World) (σ : Store) (n : nat) :
  every_cycle_fails w ->
  isTrading σ = false ->
  (totalVolume (stats σ) <? targetVolume (config σ))%float = true ->
  exists σ',
    drive n w σ = (Suspended (suspension_after n), σ') /\
    isTrading σ' = true /\
    tradeHistory (stats σ') = tradeHistory (stats σ) /\
    totalVolume (stats σ') = totalVolume (stats σ).
Proof.
  intros Hfail Hidle Hlt. unfold drive, startTrading. rewrite Hidle. cbv zeta.
  match goal with
  | |- context [loop_top w ?σ0] =>
      destruct (loop_top_fails w (config σ) (totalVolume (stats σ)) σ0 Hfail)
        as (σ1 & -> & Hgo1 & Hh1)
  end.
  { unfold may_continue. store_simpl. auto. }
  destruct (run_fails w _ _ n σ1 Hfail Hgo1) as ((σ' & -> & Hgo' & Hh) & _).
  exists σ'. destruct Hgo' as (_ & Htr & Hvol & _).
  rewrite Hh, Hh1. store_simpl. auto.
Qed.

(** ** Signed out *)

Lemma signed_out_headers {A} (k : jsval -> M A) w σ :
  no_session_cookie w σ ->
  bind getHeaders k w σ
  = (inl (JErr "Error" "無法找到cr00 cookie"), set_tick (S (tick σ)) σ).
Proof.
  unfold no_session_cookie, getHeaders, getCookieValue.
  rewrite !bind_run. cbn [external ret].
  destruct (find_cookie _ _) as [c | ]; intros H; [ rewrite H | ]; reflexivity.
Qed.

Lemma signed_out_getQuote p w σ :
  no_session_cookie w σ ->
  getQuote p w σ
  = (inr JNull,
     push_log "❌ 獲取報價錯誤: Error: 無法找到cr00 cookie" (set_tick (S (tick σ)) σ)).
Proof.
  intros H. unfold getQuote, getQuote_try.
  rewrite try_catch_run, signed_out_headers by exact H. reflexivity.
Qed.

Lemma signed_out_buyToken p w σ :
  no_session_cookie w σ ->
  buyToken p w σ
  = (inr (JObj [("success", JBool false);
                ("message", JErr "Error" "無法找到cr00 cookie")]),
     push_log "❌ 買入代幣錯誤: Error: 無法找到cr00 cookie" (set_tick (S (tick σ)) σ)).
Proof.
  intros H. unfold buyToken, buyToken_try.
  rewrite try_catch_run, signed_out_headers by exact H. reflexivity.
Qed.

Lemma signed_out_sellToken p w σ :
  no_session_cookie w σ ->
  sellToken p w σ
  = (inr (JObj [("success", JBool false);
                ("message", JErr "Error" "無法找到cr00 cookie")]),
     push_log "❌ 賣出代幣錯誤: Error: 無法找到cr00 cookie" (set_tick (S (tick σ)) σ)).
Proof.
  intros H. unfold sellToken, sellToken_try.
  rewrite try_catch_run, signed_out_headers by exact H. reflexivity.
Qed.

Lemma signed_out_getUSDTBalance w σ :
  no_session_cookie w σ ->
  getUSDTBalance w σ
  = (inr 0%float,
     push_log "❌ 獲取USDT餘額錯誤: Error: 無法找到cr00 cookie"
       (set_tick (S (tick σ)) σ)).
Proof.
  intros H. unfold getUSDTBalance, getUSDTBalance_try.
  rewrite try_catch_run, signed_out_headers by exact H. reflexivity.
Qed.

Lemma wp_equal {A} (m : M A) w σ r σ' (Q : jsval + A -> Store -> Prop) :
  m w σ = (r, σ') -> Q r σ' -> wp m w σ Q.
Proof. unfold wp. intros ->. auto. Qed.

Ltac wp_signed_out H :=
  lazymatch goal with
  | |- wp (getQuote _) _ _ _ => eapply wp_equal; [ apply signed_out_getQuote, H | ]
  | |- wp (buyToken _) _ _ _ => eapply wp_equal; [ apply signed_out_buyToken, H | ]
  | |- wp (sellToken _) _ _ _ => eapply wp_equal; [ apply signed_out_sellToken, H | ]
  | |- wp getUSDTBalance _ _ _ =>
      eapply wp_equal; [ apply signed_out_getUSDTBalance, H | ]
  | |- wp (if negb (Js.truthy JNull) then _ else _) _ _ _ => cbn [negb Js.truthy]
  | |- _ => wp_rule
  end;
  store_simpl.

Lemma signed_out_cycle w σ :
  always_signed_out w ->
  wp runCycle w σ
    (fun r σ' =>
       r = inr false /\ currentBalance (stats σ') = 0%float /\
       exists rest,
         logs σ' = logs σ
                   ++ "❌ 獲取USDT餘額錯誤: Error: 無法找到cr00 cookie" :: rest).
Proof.
  intros Hout. destruct σ as [c s lg tr cn tk].
  unfold runCycle, runCycle_try.
  repeat wp_signed_out Hout.
  all: cbn beta iota; store_simpl.
  all: split; [ reflexivity | split; [ reflexivity | ] ].
  all: rewrite <- ?app_assoc; cbn [app]; eexists; reflexivity.
Qed.

(** X13.  Signed out, that is with no [cr00] cookie whenever the cookies
    are read, every cycle returns [false]: the balance request is not made,
    the balance counts as 0, and the first line the cycle logs is the
    balance error with the message of the missing cookie. *)
Theorem signed_out_every_cycle_fails (w : World) (σ : Store) :
  always_signed_out w ->
  exists σ' rest,
    runCycle w σ = (inr false, σ') /\
    currentBalance (stats σ') = 0%float /\
    logs σ' = logs σ ++ "❌ 獲取USDT餘額錯誤: Error: 無法找到cr00 cookie" :: rest.
Proof.
  intros Hout.
  destruct (wp_run _ _ _ _ (signed_out_cycle w σ Hout))
    as (r & σ' & Hrun & -> & Hbal & rest & Hlogs).
  eauto.
Qed.

Lemma offline_signed_out : always_signed_out Sample.offline.
Proof. intros σ. exact I. Qed.

Lemma signed_out_every_cycle_fails_witness :
  exists σ' rest,
    runCycle Sample.offline initial_store = (inr false, σ') /\
    currentBalance (stats σ') = 0%float /\
    logs σ' = logs initial_store
              ++ "❌ 獲取USDT餘額錯誤: Error: 無法找到cr00 cookie" :: rest.
Proof.
  exact (signed_out_every_cycle_fails Sample.offline initial_store
           offline_signed_out).
Defined.

Lemma signed_out_fails w : always_signed_out w -> every_cycle_fails w.
Proof.
  intros Hout σ.
  destruct (wp_run _ _ _ _ (signed_out_cycle w σ Hout)) as (r & σ' & -> & -> & _).
  reflexivity.
Qed.

Lemma failed_cycles_are_retried_forever_witness :
  exists σ',
    drive 5 Sample.offline initial_store
      = (Suspended (suspension_after 5), σ') /\
    isTrading σ' = true /\
    tradeHistory (stats σ') = tradeHistory (stats initial_store) /\
    totalVolume (stats σ') = totalVolume (stats initial_store).
Proof.
  apply (failed_cycles_are_retried_forever Sample.offline initial_store 5).
  - exact (signed_out_fails _ offline_signed_out).
  - reflexivity.
  - reflexivity.
Defined.

(** Signed out, nothing is sent. *)

Lemma set_axios_signed_out a w : always_signed_out w -> always_signed_out (set_axios a w).
Proof. intros H σ. exact (H σ). Qed.

Lemma sends_nothing_bind {A B} (m : M A) (k : A -> M B) :
  sends_nothing m -> (forall x, sends_nothing (k x)) -> sends_nothing (bind m k).
Proof.
  intros Hm Hk a w σ Hout. rewrite !bind_run, Hm by exact Hout.
  destruct (m w σ) as [[e | x] σ1]; [ reflexivity | apply Hk, Hout ].
Qed.

Lemma sends_nothing_try_catch {A} (body : M A) (handler : jsval -> M A) :
  sends_nothing body -> (forall e, sends_nothing (handler e)) ->
  sends_nothing (try_catch body handler).
Proof.
  intros Hb Hh a w σ Hout. rewrite !try_catch_run, Hb by exact Hout.
  destruct (body w σ) as [[e | x] σ1]; [ apply Hh, Hout | reflexivity ].
Qed.

Lemma sends_nothing_local {A} (m : M A) :
  (forall a w σ, m (set_axios a w) σ = m w σ) -> sends_nothing m.
Proof. intros H a w σ _. apply H. Qed.

Lemma sends_nothing_getQuote p : sends_nothing (getQuote p).
Proof.
  intros a w σ Hout.
  rewrite !signed_out_getQuote; [ reflexivity | apply Hout | apply Hout ].
Qed.

Lemma sends_nothing_buyToken p : sends_nothing (buyToken p).
Proof.
  intros a w σ Hout.
  rewrite !signed_out_buyToken; [ reflexivity | apply Hout | apply Hout ].
Qed.

Lemma sends_nothing_sellToken p : sends_nothing (sellToken p).
Proof.
  intros a w σ Hout.
  rewrite !signed_out_sellToken; [ reflexivity | apply Hout | apply Hout ].
Qed.

Lemma sends_nothing_getUSDTBalance : sends_nothing getUSDTBalance.
Proof.
  intros a w σ Hout.
  rewrite !signed_out_getUSDTBalance; [ reflexivity | apply Hout | apply Hout ].
Qed.

Lemma to_str_set_axios a w : forall v, to_str (set_axios a w) v = to_str w v.
Proof.
  fix IH 1. intros [ | | b | x | s | items | props | n m]; cbn [to_str];
    try reflexivity.
  f_equal. induction items as [ | e items IHitems]; cbn [map]; [ reflexivity | ].
  f_equal; [ | exact IHitems ].
  pose proof (IH e) as He. destruct e; try reflexivity; exact He.
Qed.

Lemma to_number_set_axios a w v : to_number (set_axios a w) v = to_number w v.
Proof.
  destruct v; cbn [to_number]; try reflexivity;
    rewrite to_str_set_axios; reflexivity.
Qed.

Create HintDb quiet discriminated.
#[local] Hint Resolve sends_nothing_getQuote sends_nothing_buyToken
  sends_nothing_sellToken sends_nothing_getUSDTBalance : quiet.

Ltac sends_nothing_tac :=
  repeat first
    [ solve [ auto with quiet ]
    | apply sends_nothing_local; reflexivity
    | apply sends_nothing_local; intros; unfold log, platform;
      rewrite ?to_str_set_axios, ?to_number_set_axios; reflexivity
    | apply sends_nothing_bind; [ | intro ]
    | apply sends_nothing_try_catch; [ | intro ]
    | match goal with
      | |- sends_nothing (if ?b then _ else _) => destruct b
      end ].

Lemma sends_nothing_runCycle : sends_nothing runCycle.
Proof. unfold runCycle, runCycle_try. sends_nothing_tac. Qed.

Lemma loop_top_sends_nothing a w σ :
  always_signed_out w -> loop_top (set_axios a w) σ = loop_top w σ.
Proof.
  intros Hout. unfold loop_top. rewrite sends_nothing_runCycle by exact Hout.
  reflexivity.
Qed.

Lemma run_sends_nothing a w n : forall t σ,
  always_signed_out w -> run n (set_axios a w) t σ = run n w t σ.
Proof.
  induction n as [ | n IH]; intros t σ Hout; cbn [run]; [ reflexivity | ].
  assert (resume (set_axios a w) t σ = resume w t σ) as ->.
  { destruct t as [[ | ] | | e]; cbn [resume]; try reflexivity.
    apply loop_top_sends_nothing, Hout. }
  destruct (resume w t σ) as [t1 σ1]. apply IH, Hout.
Qed.

(** X14.  Signed out, nothing is sent to the exchange: a cycle, and
    startTrading with any number of its timers, give the same result and
    the same store whatever the exchange would have answered. *)
Theorem signed_out_nothing_is_sent (a : nat -> request -> jsval + jsval)
    (w : World) (σ : Store) (n : nat) :
  always_signed_out w ->
  runCycle (set_axios a w) σ = runCycle w σ /\
  drive n (set_axios a w) σ = drive n w σ.
Proof.
  intros Hout. split; [ apply sends_nothing_runCycle, Hout | ].
  unfold drive, startTrading. destruct (isTrading σ).
  - apply run_sends_nothing, Hout.
  - cbv zeta. cbn [Date_now set_axios].
    rewrite loop_top_sends_nothing by exact Hout.
    destruct (loop_top w _) as [t σ1]. apply run_sends_nothing, Hout.
Qed.

Lemma signed_out_nothing_is_sent_witness :
  runCycle (set_axios (fun _ r => Sample.exchange r) Sample.offline) initial_store
    = runCycle Sample.offline initial_store /\
  drive 4 (set_axios (fun _ r => Sample.exchange r) Sample.offline) initial_store
    = drive 4 Sample.offline initial_store.
Proof.
  exact (signed_out_nothing_is_sent _ Sample.offline initial_store 4
           offline_signed_out).
Defined.

(** ** The balance *)

Lemma find_by_absent key wanted items :
  Forall (not_tagged key wanted) items ->
  find_by key wanted items = inr JUndefined.
Proof.
  induction 1 as [ | x items (v & Hv & Hne) _ IH]; cbn [find_by];
    [ reflexivity | ].
  rewrite Hv, Hne. exact IH.
Qed.

Lemma find_by_present key wanted before ps after :
  Forall (not_tagged key wanted) before ->
  Js.assoc key ps = JStr wanted ->
  find_by key wanted (before ++ JObj ps :: after) = inr (JObj ps).
Proof.
  intros Hbefore Hps.
  induction Hbefore as [ | x before (v & Hv & Hne) _ IH]; cbn [app find_by].
  - cbn [Js.get_prop]. rewrite Hps. cbn [Js.strict_eq_str].
    rewrite String.eqb_refl. reflexivity.
  - rewrite Hv, Hne. exact IH.
Qed.

(** The balance call up to the array of accounts. *)
Lemma getUSDTBalance_try_accounts w σ c payload accounts :
  session_cookie w σ = Some c -> c <> "" ->
  axios w (S (tick σ)) (balance_request w c) = inr payload ->
  Js.get_prop payload "data" = inr (JArr accounts) ->
  getUSDTBalance_try w σ
  = (let* spotAccount := lift (find_by "accountType" "MAIN" accounts) in
     let* usdt :=
       match spotAccount with
       | JUndefined | JNull => ret JUndefined
       | _ =>
           let* balances := lift (Js.get_prop spotAccount "assetBalances") in
           lift (array_find_by "asset" "USDT" balances)
       end in
     if Js.truthy usdt then
       let* free := lift (Js.get_prop usdt "free") in
       platform (fun w => parseFloat w free)
     else ret 0%float) w (set_tick (S (S (tick σ))) σ).
Proof.
  intros Hc Hne Hpay Hdata. unfold getUSDTBalance_try.
  rewrite bind_run, (getHeaders_signed_in w σ c Hc Hne).
  rewrite bind_run. unfold axios_get, send. cbn [tick set_tick].
  change {| meth := GET; url := balance_url; body := JUndefined;
            headers := headers_for w c |} with (balance_request w c).
  rewrite Hpay. rewrite bind_run. cbn [lift]. rewrite Hdata. reflexivity.
Qed.

(** X15.  Signed in, when the balance payload lists no main account (the
    list may be empty), getUSDTBalance returns 0 and logs nothing: the
    missing account is not told apart from an empty one. *)
Theorem balance_without_a_main_account_is_zero (w : World) (σ : Store)
    (c : string) (payload : jsval) (accounts : list jsval) :
  session_cookie w σ = Some c -> c <> "" ->
  axios w (S (tick σ)) (balance_request w c) = inr payload ->
  Js.get_prop payload "data" = inr (JArr accounts) ->
  Forall (not_tagged "accountType" "MAIN") accounts ->
  getUSDTBalance w σ = (inr 0%float, set_tick (S (S (tick σ))) σ).
Proof.
  intros Hc Hne Hpay Hdata Hnone. unfold getUSDTBalance.
  rewrite try_catch_run.
  rewrite (getUSDTBalance_try_accounts w σ c payload accounts Hc Hne Hpay Hdata).
  rewrite bind_run. cbn [lift]. rewrite (find_by_absent _ _ _ Hnone).
  reflexivity.
Qed.

Lemma balance_without_a_main_account_is_zero_witness :
  getUSDTBalance (set_axios no_accounts Sample.online) initial_store
  = (inr 0%float, set_tick 2 initial_store).
Proof.
  apply (balance_without_a_main_account_is_zero
           (set_axios no_accounts Sample.online) initial_store
           "0123456789abcdef"
           (JObj [("code", JStr "000000"); ("data", JArr [])]) []).
  - reflexivity.
  - discriminate.
  - reflexivity.
  - reflexivity.
  - constructor.
Defined.

(** X16.  Signed in, when the balance payload lists accounts of which the
    first main one lists assets of which the first USDT one is [usdt],
    getUSDTBalance returns [parseFloat(usdt.free)], makes the one request,
    and logs nothing. *)
Theorem balance_is_the_free_USDT_of_the_main_account (w : World) (σ : Store)
    (c : string) (payload : jsval)
    (before after assets_before assets_after : list jsval)
    (main usdt : list (string * jsval)) :
  session_cookie w σ = Some c -> c <> "" ->
  axios w (S (tick σ)) (balance_request w c) = inr payload ->
  Js.get_prop payload "data" = inr (JArr (before ++ JObj main :: after)) ->
  Forall (not_tagged "accountType" "MAIN") before ->
  Js.assoc "accountType" main = JStr "MAIN" ->
  Js.assoc "assetBalances" main
    = JArr (assets_before ++ JObj usdt :: assets_after) ->
  Forall (not_tagged "asset" "USDT") assets_before ->
  Js.assoc "asset" usdt = JStr "USDT" ->
  getUSDTBalance w σ
  = (inr (parseFloat w (Js.assoc "free" usdt)), set_tick (S (S (tick σ))) σ).
Proof.
  intros Hc Hne Hpay Hdata Hbefore Hmain Hassets Habefore Husdt.
  unfold getUSDTBalance. rewrite try_catch_run.
  rewrite (getUSDTBalance_try_accounts w σ c payload _ Hc Hne Hpay Hdata).
  rewrite bind_run. cbn [lift].
  rewrite (find_by_present _ _ _ _ _ Hbefore Hmain).
  rewrite !bind_run. cbn [lift Js.get_prop]. rewrite Hassets.
  cbn [array_find_by]. rewrite (find_by_present _ _ _ _ _ Habefore Husdt).
  reflexivity.
Qed.

Lemma balance_is_the_free_USDT_of_the_main_account_witness :
  getUSDTBalance Sample.online initial_store
  = (inr 1000%float, set_tick 2 initial_store).
Proof.
  apply (balance_is_the_free_USDT_of_the_main_account
           Sample.online initial_store "0123456789abcdef" Sample.balance
           [JObj [("accountType", JStr "FUNDING"); ("assetBalances", JArr [])]]
           []
           [JObj [("asset", JStr "BNB"); ("free", JStr "0.1")]]
           []
           [("accountType", JStr "MAIN");
            ("assetBalances",
             JArr [JObj [("asset", JStr "BNB"); ("free", JStr "0.1")];
                   JObj [("asset", JStr "USDT"); ("free", JStr "1000")]])]
           [("asset", JStr "USDT"); ("free", JStr "1000")]).
  - reflexivity.
  - discriminate.
  - reflexivity.
  - reflexivity.
  - repeat constructor. eexists. split; reflexivity.
  - reflexivity.
  - reflexivity.
  - repeat constructor. eexists. split; reflexivity.
  - reflexivity.
Defined.

(** ** The saved configuration and the other keys *)

(** X17.  The configuration is kept under the one key [tradingConfig]:
    saveConfig leaves every other key of localStorage as it is, and what
    loadConfig does is the same whatever is written or deleted under
    another key.  When loadConfig replaces the configuration, it changes
    nothing else of the store. *)
Theorem the_configuration_has_one_key (k : string) (t : text)
    (localStorage : gmap string text) (σ : Store) :
  k <> config_key ->
  saveConfig σ localStorage !! k = localStorage !! k /\
  loadConfig (<[k := t]> localStorage) σ = loadConfig localStorage σ /\
  loadConfig (delete k localStorage) σ = loadConfig localStorage σ /\
  (forall σ', loadConfig localStorage σ = LoadOk σ' ->
              σ' = set_config (config σ') σ).
Proof.
  intros Hk. split; [ | split; [ | split ] ].
  - unfold saveConfig. apply lookup_insert_ne. congruence.
  - unfold loadConfig. rewrite lookup_insert_ne by exact Hk. reflexivity.
  - unfold loadConfig. rewrite lookup_delete_ne by exact Hk. reflexivity.
  - intros σ'. apply loadConfig_only_config.
Qed.

Lemma the_configuration_has_one_key_witness :
  saveConfig initial_store ∅ !! "theme" = (∅ : gmap string text) !! "theme" /\
  loadConfig (<["theme" := Garbage "dark"]> ∅) initial_store
    = loadConfig ∅ initial_store /\
  loadConfig (delete "theme" ∅) initial_store = loadConfig ∅ initial_store /\
  (forall σ', loadConfig ∅ initial_store = LoadOk σ' ->
              σ' = set_config (config σ') initial_store).
Proof.
  apply (the_configuration_has_one_key "theme" (Garbage "dark") ∅ initial_store).
  discriminate.
Defined.

(** ** The width of the running time *)

Lemma two_digits_width z :
  0 <= z < 100 -> String.length (two_digits z) = 2%nat.
Proof.
  intros Hz.
  assert (forallb (fun n => Nat.eqb (String.length (two_digits (Z.of_nat n))) 2)
            (seq 0 100) = true) as Hall by (vm_compute; reflexivity).
  rewrite forallb_forall in Hall.
  specialize (Hall (Z.to_nat z)). rewrite Z2Nat.id in Hall by lia.
  apply Nat.eqb_eq, Hall, in_seq. lia.
Qed.

(** X19.  From the start and for less than a hundred hours, the running
    time has exactly the eight characters of HH:MM:SS. *)
Theorem runningTime_is_eight_characters_wide (now : Z) (σ : Store) :
  startTime (stats σ) <> 0 ->
  0 <= now - startTime (stats σ) < 100 * 60 * 60 * 1000 ->
  String.length (runningTime now σ) = 8%nat.
Proof.
  intros Hstarted Hrange. unfold runningTime.
  apply Z.eqb_neq in Hstarted. rewrite Hstarted. cbv zeta.
  set (e := now - startTime (stats σ)) in *. clearbody e.
  rewrite !Z.rem_mod_nonneg by lia.
  change (1000 * 60 * 60) with 3600000. change (1000 * 60) with 60000.
  unfold hms. rewrite !length_append.
  assert (0 <= e / 3600000 < 100) as Hh
    by (Z.to_euclidean_division_equations; lia).
  assert (0 <= e mod 3600000 / 60000 < 100) as Hm
    by (Z.to_euclidean_division_equations; lia).
  assert (0 <= e mod 60000 / 1000 < 100) as Hs
    by (Z.to_euclidean_division_equations; lia).
  rewrite (two_digits_width _ Hh), (two_digits_width _ Hm),
    (two_digits_width _ Hs).
  reflexivity.
Qed.

Lemma runningTime_is_eight_characters_wide_witness :
  String.length (runningTime 1735689604000 (stopTrading Sample.backing_off))
  = 8%nat.
Proof.
  apply (runningTime_is_eight_characters_wide 1735689604000
           (stopTrading Sample.backing_off)).
  - vm_compute. discriminate.
  - vm_compute. split; [ discriminate | reflexivity ].
Defined.

(** ** One request for each operation *)

Lemma exchange_free_bind {A B} (m : M A) (k : A -> M B) :
  exchange_free m -> (forall x, exchange_free (k x)) -> exchange_free (bind m k).
Proof.
  intros Hm Hk a w σ. rewrite !bind_run, Hm.
  destruct (m w σ) as [[e | x] σ1]; [ reflexivity | apply Hk ].
Qed.

Lemma exchange_free_plain {A} (m : M A) :
  (forall a w σ, m (set_axios a w) σ = m w σ) -> exchange_free m.
Proof. intros H. exact H. Qed.

Ltac exchange_free_tac :=
  repeat first
    [ apply exchange_free_plain; reflexivity
    | apply exchange_free_bind; [ | intro ]
    | match goal with
      | |- exchange_free (match ?x with _ => _ end) => destruct x
      | |- exchange_free (if ?b then _ else _) => destruct b
      end ].

(** X20.  Signed in, each of the four operations asks the exchange one
    thing only: getQuote, buyToken and sellToken a POST of their payload to
    their URL, getUSDTBalance a GET of the balance URL, each with the four
    headers of the session, at the read after the cookie's.  Two exchanges
    that answer this one request alike make the operation return the same
    value and leave the same store. *)
Theorem each_operation_makes_one_request
    (a a' : nat -> request -> jsval + jsval) (w : World) (σ : Store)
    (c : string) (params : jsval) :
  session_cookie w σ = Some c -> c <> "" ->
  (a (S (tick σ)) (post_request w c quote_url params)
   = a' (S (tick σ)) (post_request w c quote_url params) ->
   getQuote params (set_axios a w) σ = getQuote params (set_axios a' w) σ) /\
  (a (S (tick σ)) (post_request w c buy_url params)
   = a' (S (tick σ)) (post_request w c buy_url params) ->
   buyToken params (set_axios a w) σ = buyToken params (set_axios a' w) σ) /\
  (a (S (tick σ)) (post_request w c sell_url params)
   = a' (S (tick σ)) (post_request w c sell_url params) ->
   sellToken params (set_axios a w) σ = sellToken params (set_axios a' w) σ) /\
  (a (S (tick σ)) (balance_request w c) = a' (S (tick σ)) (balance_request w c) ->
   getUSDTBalance (set_axios a w) σ = getUSDTBalance (set_axios a' w) σ).
Proof.
  intros Hc Hne.
  assert (forall b, session_cookie (set_axios b w) σ = Some c) as Hcb
    by (intros b; exact Hc).
  split; [ | split; [ | split ] ]; intros Hsame.
  - unfold getQuote, getQuote_try.
    rewrite !try_catch_run, !bind_run.
    rewrite (getHeaders_signed_in _ _ _ (Hcb a) Hne),
      (getHeaders_signed_in _ _ _ (Hcb a') Hne).
    rewrite !bind_run. unfold axios_post, send.
    cbn [axios set_axios tick set_tick].
    change (headers_for (set_axios a w) c) with (headers_for w c).
    change (headers_for (set_axios a' w) c) with (headers_for w c).
    change {| meth := POST; url := quote_url; body := params;
              headers := headers_for w c |}
      with (post_request w c quote_url params).
    rewrite Hsame.
    destruct (a' _ _) as [e | data]; cbn [lift bind log ret];
      rewrite ?to_str_set_axios; [ reflexivity | ].
    destruct (Js.get_prop data "data"); cbn [log bind ret];
      rewrite ?to_str_set_axios; reflexivity.
  - unfold buyToken, buyToken_try.
    rewrite !try_catch_run, !bind_run.
    rewrite (getHeaders_signed_in _ _ _ (Hcb a) Hne),
      (getHeaders_signed_in _ _ _ (Hcb a') Hne).
    unfold axios_post, send. cbn [axios set_axios tick set_tick].
    change (headers_for (set_axios a w) c) with (headers_for w c).
    change (headers_for (set_axios a' w) c) with (headers_for w c).
    change {| meth := POST; url := buy_url; body := params;
              headers := headers_for w c |}
      with (post_request w c buy_url params).
    rewrite Hsame.
    destruct (a' _ _) as [e | data]; cbn [log bind ret];
      rewrite ?to_str_set_axios; reflexivity.
  - unfold sellToken, sellToken_try.
    rewrite !try_catch_run, !bind_run.
    rewrite (getHeaders_signed_in _ _ _ (Hcb a) Hne),
      (getHeaders_signed_in _ _ _ (Hcb a') Hne).
    unfold axios_post, send. cbn [axios set_axios tick set_tick].
    change (headers_for (set_axios a w) c) with (headers_for w c).
    change (headers_for (set_axios a' w) c) with (headers_for w c).
    change {| meth := POST; url := sell_url; body := params;
              headers := headers_for w c |}
      with (post_request w c sell_url params).
    rewrite Hsame.
    destruct (a' _ _) as [e | data]; cbn [log bind ret];
      rewrite ?to_str_set_axios; reflexivity.
  - unfold getUSDTBalance, getUSDTBalance_try.
    rewrite !try_catch_run, !bind_run.
    rewrite (getHeaders_signed_in _ _ _ (Hcb a) Hne),
      (getHeaders_signed_in _ _ _ (Hcb a') Hne).
    rewrite !bind_run. unfold axios_get, send.
    cbn [axios set_axios tick set_tick].
    change (headers_for (set_axios a w) c) with (headers_for w c).
    change (headers_for (set_axios a' w) c) with (headers_for w c).
    change {| meth := GET; url := balance_url; body := JUndefined;
              headers := headers_for w c |}
      with (balance_request w c).
    rewrite Hsame.
    destruct (a' _ _) as [e | data]; cbn [log bind ret];
      rewrite ?to_str_set_axios; [ reflexivity | ].
    match goal with
    | |- context [bind ?m ?k (set_axios a w) ?s] =>
        assert (exchange_free (bind m k)) as Hfree by exchange_free_tac;
        rewrite (Hfree a w s), (Hfree a' w s);
        destruct (bind m k w s) as [[e | x] σ1]
    end; cbn [log bind ret]; rewrite ?to_str_set_axios; reflexivity.
Qed.

Lemma each_operation_makes_one_request_witness :
  getQuote JNull (set_axios (fun _ r => Sample.exchange r) Sample.online)
    initial_store
  = getQuote JNull (set_axios answers_once Sample.online) initial_store.
Proof.
  apply (proj1 (each_operation_makes_one_request
                  (fun _ r => Sample.exchange r) answers_once
                  Sample.online initial_store "0123456789abcdef" JNull
                  eq_refl ltac:(discriminate))).
  reflexivity.
Defined.

(** ** Starting at the target *)

(** X21.  When startTrading is called on a store that is not running and
    whose [totalVolume] is not below [targetVolume] (as when the target is
    reached already, or is not a number), no cycle is run: the call returns
    at once and timers change nothing.  It has read the clock once, for
    [startTime], logged the start line and the stop line, and left the run
    flag off. *)
Theorem starting_at_the_target_runs_no_cycle (w : World) (σ : Store) (n : nat) :
  isTrading σ = false ->
  (totalVolume (stats σ) <? targetVolume (config σ))%float = false ->
  exists σ',
    drive n w σ = (Returned, σ') /\
    isTrading σ' = false /\
    logs σ' = logs σ ++ ["🚀 開始自動交易"; "⏹️ 停止交易"] /\
    stats σ' = set_startTime (Date_now w (tick σ)) (stats σ) /\
    config σ' = config σ /\ tick σ' = S (tick σ).
Proof.
  intros Hidle Hreached. unfold drive, startTrading. rewrite Hidle. cbv zeta.
  unfold loop_top, loop_test. store_simpl. rewrite Hreached. cbn [andb].
  eexists. split.
  - induction n as [ | n IH]; [ reflexivity | exact IH ].
  - unfold stopTrading. store_simpl. rewrite <- app_assoc. auto 10.
Qed.

Lemma starting_at_the_target_runs_no_cycle_witness :
  exists σ',
    drive 2 Sample.online (set_config no_target initial_store) = (Returned, σ') /\
    isTrading σ' = false /\
    logs σ' = logs (set_config no_target initial_store)
              ++ ["🚀 開始自動交易"; "⏹️ 停止交易"] /\
    stats σ' = set_startTime (Date_now Sample.online 0)
                 (stats (set_config no_target initial_store)) /\
    config σ' = config (set_config no_target initial_store) /\
    tick σ' = 1%nat.
Proof.
  apply (starting_at_the_target_runs_no_cycle Sample.online
           (set_config no_target initial_store) 2); reflexivity.
Defined.
